(** * tfts.datasets.get_data: the example-data generators

    A shallow embedding of [src/tfts/datasets/get_data.py] and the
    properties its specification states about it.

    Conventions of the embedding.
    - A NumPy array is a nested list in row-major order: an array of shape
      [(n, m, k)] is a list of [n] rows, each a list of [m] entries, each a
      list of [k] channel values.
    - Python integers are [Z]; negative slice bounds count from the end, as
      in Python.
    - A float64 value is the exact rational [Q] it stands for. Where a
      float becomes an integer (the split point), the operations round as
      binary64 does ([Float64]); elsewhere the values are kept exact.
      Infinities and overflow are outside the model; the one place where
      NumPy produces a not-a-number (0/0 on a constant series) is written
      out with an explicit [NaN].
    - A raised Python exception is the [Raise] case of [result].
    - The [logging] calls have no effect on the returned values and are
      left out. *)

From Stdlib Require Import ZArith QArith Qminmax Qround Qabs Lqa String DecimalString.
From stdpp Require Import base tactics option list.

Local Open Scope Z_scope.

(** ** Exceptions and results *)

(** The exceptions of class [Exception] that occur: the two built-in
    classes the code meets, and any other class (as a remote service may
    raise), each with the text [str(e)] gives. *)
Inductive exn : Type :=
  | ValueError (msg : string)
  | IndexError (msg : string)
  | OtherError (cls msg : string).

Definition str (e : exn) : string :=
  match e with
  | ValueError msg | IndexError msg | OtherError _ msg => msg
  end.

Inductive result (A : Type) : Type :=
  | Ok (a : A)
  | Raise (e : exn).
Arguments Ok {A} a.
Arguments Raise {A} e.

(** Sequencing: the first exception raised ends the computation. *)
#[global] Instance result_bind : MBind result := fun A B k r =>
  match r with
  | Ok a => k a
  | Raise e => Raise e
  end.

(** ** Python and NumPy primitives used by the generators *)

Module Py.

(** A slice bound [i] on a sequence of length [n]: negative bounds count
    from the end, and every bound is clamped into [0..n]. *)
Definition slice_bound (n i : Z) : Z :=
  if i <? 0 then Z.max (i + n) 0 else Z.min i n.

(** [l[start:stop]]; [None] is an omitted bound. *)
Definition slice {A} (start stop : option Z) (l : list A) : list A :=
  let n := Z.of_nat (length l) in
  let lo := from_option (slice_bound n) 0 start in
  let hi := from_option (slice_bound n) n stop in
  take (Z.to_nat (hi - lo)) (drop (Z.to_nat lo) l).

(** [range(a, b)] *)
Definition range (a b : Z) : list Z :=
  (fun k => a + Z.of_nat k) <$> seq 0 (Z.to_nat (b - a)).

(** [int(q)] on a float: truncation toward zero. *)
Definition int (q : Q) : Z := Z.quot (Qnum q) (Z.pos (Qden q)).

(** [a < b] on floats *)
Definition ltb (a b : Q) : bool := negb (Qle_bool b a).

(** [str(n)] of an integer, as [%s] formats it. *)
Definition str_int (n : Z) : string := NilZero.string_of_int (Z.to_int n).

End Py.

Module Np.

(** [np.roll(a, shift, axis=0)]: element [i] of the result is element
    [(i - shift) mod n] of [a]. *)
Definition roll {B} (shift : Z) (a : list B) : list B :=
  let n := Z.of_nat (length a) in
  if n =? 0 then a
  else let k := Z.to_nat (n - shift mod n) in drop k a ++ take k a.

(** [np.roll(a, shift)] without an axis, on an array of shape [(n, 1)]:
    the array is flattened, rolled, and given its shape [(n, 1)] back. *)
Definition roll_flat {A} (shift : Z) (a : list (list A)) : list (list A) :=
  (fun e => [e]) <$> roll shift (concat a).

(** [a.T] on a two-dimensional array given as the list of its rows (all of
    the length of the first): the list of its columns. *)
Definition transpose {B} (a : list (list B)) : list (list B) :=
  match a with
  | [] => []
  | a0 :: _ => foldr (zip_with cons) (replicate (length a0) []) a
  end.

(** [np.stack(arrays, axis=1)]: row [i] of the result lists element [i] of
    every array. An empty list of arrays, or arrays of different lengths,
    raise [ValueError]. *)
Definition stack_axis1 {B} (arrays : list (list B)) : result (list (list B)) :=
  match arrays with
  | [] => Raise (ValueError "need at least one array to stack")
  | a0 :: _ =>
      if forallb (fun a => Nat.eqb (length a) (length a0)) arrays
      then Ok (transpose arrays)
      else Raise (ValueError "all input arrays must have the same shape")
  end.

(** [np.max(a)] and [np.min(a)] over all elements; they raise on an empty
    array. *)
Definition max (a : list Q) : result Q :=
  match a with
  | [] => Raise (ValueError "zero-size array to reduction operation maximum which has no identity")
  | e :: r => Ok (foldl Qmax e r)
  end.

Definition min (a : list Q) : result Q :=
  match a with
  | [] => Raise (ValueError "zero-size array to reduction operation minimum which has no identity")
  | e :: r => Ok (foldl Qmin e r)
  end.

(** [np.linspace(start, stop, num)] (endpoint included): [num] evenly
    spaced samples, the last one set to [stop]; a negative [num] raises. *)
Definition linspace_samples (start stop : Q) (num : Z) : list Q :=
  let div := num - 1 in
  let delta := (stop - start)%Q in
  let y := inject_Z <$> Py.range 0 num in
  let y :=
    if 0 <? div then (fun i => i * (delta / inject_Z div) + start)%Q <$> y
    else (fun i => i * delta + start)%Q <$> y in
  if 1 <? num then <[Z.to_nat (num - 1) := stop]> y else y.

Definition linspace (start stop : Q) (num : Z) : result (list Q) :=
  if num <? 0
  then Raise (ValueError ("Number of samples, " ++ Py.str_int num
                          ++ ", must be non-negative."))
  else Ok (linspace_samples start stop num).

(** [np.array(x)[:, :, 0:1]] for a Python list [x] of arrays of one shape
    [(m, k)]: an empty list makes a one-dimensional array of shape [(0,)],
    which three indices do not fit. *)
Definition array_first_channel {A} (x : list (list (list A))) : result (list (list (list A))) :=
  match x with
  | [] => Raise (IndexError "too many indices for array: array is 1-dimensional, but 3 were indexed")
  | _ :: _ => Ok ((fun sample : list (list A) => Py.slice (Some 0) (Some 1) <$> sample) <$> x)
  end.

End Np.

(** ** float64 arithmetic *)

Module Float64.

(** The integer nearest to [a / b], a half going to the even neighbour
    ([0 <= a], [0 < b]). *)
Definition nearest_even (a b : Z) : Z :=
  let q := a / b in
  match 2 * (a mod b) ?= b with
  | Lt => q
  | Gt => q + 1
  | Eq => if Z.even q then q else q + 1
  end.

(** The binary64 value nearest to [q], ties to even: a significand [m] of
    53 bits and an exponent [e] with [|q|] nearest to [m * 2^e]. The
    exponent is not bounded. *)
Definition round (q : Q) : Q :=
  let a := Z.abs (Qnum q) in
  let b := Z.pos (Qden q) in
  if a =? 0 then 0%Q
  else
    let e0 := Z.log2 a - Z.log2 b - 52 in
    let e := if a * 2 ^ Z.max 0 (- e0) <? 2 ^ 52 * (b * 2 ^ Z.max 0 e0)
             then e0 - 1 else e0 in
    let m := nearest_even (a * 2 ^ Z.max 0 (- e)) (b * 2 ^ Z.max 0 e) in
    Qmake (Z.sgn (Qnum q) * m * 2 ^ Z.max 0 e) (Z.to_pos (2 ^ Z.max 0 (- e))).

(** [float(n)], [x - y] and [x * y] *)
Definition of_int (n : Z) : Q := round (inject_Z n).
Definition sub (x y : Q) : Q := round (x - y).
Definition mul (x y : Q) : Q := round (x * y).

End Float64.

(** ** Returned data *)

(** A float64 value: a number, or the not-a-number that 0/0 produces. *)
Inductive float : Type :=
  | Num (q : Q)
  | NaN.

Abbreviation array3 A := (list (list (list A))).

(** What a generator returns: [(x, y)], or
    [((x_train, y_train), (x_valid, y_valid))]. *)
Inductive dataset (A : Type) : Type :=
  | Full (x y : array3 A)
  | Split (train valid : array3 A * array3 A).
Arguments Full {A} x y.
Arguments Split {A} train valid.

(** The train/validation split both generators end with
    (get_data.py lines 76-83 and 119-126); [n] is [n_examples] in the sine
    generator and [len(x_array)] in the air-passenger generator. The
    product [n * (1 - test_size)] is a float64 one: [1 - test_size] is
    rounded, [n] is converted, and their product is rounded again before
    [int] truncates it. *)
Definition train_valid_split {A} (n : Z) (test_size : Q)
    (x_array y_array : array3 A) : dataset A :=
  if Py.ltb 0 test_size then
    let slice := Py.int (Float64.mul (Float64.of_int n) (Float64.sub 1 test_size)) in
    let x_train := Py.slice None (Some slice) x_array in
    let y_train := Py.slice None (Some slice) y_array in
    let x_valid := Py.slice (Some slice) None x_array in
    let y_valid := Py.slice (Some slice) None y_array in
    Split (x_train, y_train) (x_valid, y_valid)
  else Full x_array y_array.

(** ** The air-passenger generator *)

(** An array of shape [(n, 1)] holding the values of [s]; for [s] the second
    column of a frame [df], this is [df.iloc[:, 1:2].values]. *)
Definition column {A} (s : list A) : list (list A) := (fun e => [e]) <$> s.

(** [(v - np.max(v)) / (np.max(v) - np.min(v))] on one element: the
    quotient of a zero numerator by a zero range is not-a-number. The
    differences are taken as they are while they stay in the range of the
    column's type (no int64 wrap-around), and the quotient is kept
    exact. *)
Definition scale (hi lo : Q) (a : Q) : float :=
  if Qeq_bool (hi - lo) 0 then NaN else Num ((a - hi) / (hi - lo)).

(** Lines 100-102: the first 144 rows of the CSV's second column, as an
    array of shape [(n, 1)], rescaled. [csv] is the second column of the
    downloaded file. *)
Definition air_values (csv : list Q) : result (list (list float)) :=
  let df := take 144 csv in
  let v := column df in
  hi ← Np.max (concat v);
  lo ← Np.min (concat v);
  Ok ((fun row : list Q => scale hi lo <$> row) <$> v).

(** Lines 106-109 and 112-115: the stacked rolls, before the trim. *)
Definition air_x_stacked {A} (v : list (list A)) (train_sequence_length : Z)
    : result (array3 A) :=
  let x := (fun seq => Np.roll seq v) <$> Py.range 1 (train_sequence_length + 1) in
  Np.stack_axis1 x.

Definition air_y_stacked {A} (v : list (list A)) (predict_sequence_length : Z)
    : result (array3 A) :=
  let y := (fun seq => Np.roll_flat (- seq) v) <$> Py.range 0 predict_sequence_length in
  Np.stack_axis1 y.

(** Lines 104-116: the input and output windows cut from [v]. *)
Definition air_windows {A} (v : list (list A))
    (train_sequence_length predict_sequence_length : Z) : result (array3 A * array3 A) :=
  x_array ← air_x_stacked v train_sequence_length;
  let x_array :=
    reverse <$> Py.slice (Some train_sequence_length) (Some (- predict_sequence_length)) x_array in
  y_array ← air_y_stacked v predict_sequence_length;
  let y_array :=
    Py.slice (Some train_sequence_length) (Some (- predict_sequence_length)) y_array in
  Ok (x_array, y_array).

(** Lines 100-116: the arrays before the split. *)
Definition air_arrays (csv : list Q) (train_sequence_length predict_sequence_length : Z)
    : result (array3 float * array3 float) :=
  v ← air_values csv;
  air_windows v train_sequence_length predict_sequence_length.

Definition get_air_passengers (csv : list Q)
    (train_sequence_length predict_sequence_length : Z) (test_size : Q)
    : result (dataset float) :=
  '(x_array, y_array) ← air_arrays csv train_sequence_length predict_sequence_length;
  Ok (train_valid_split (Z.of_nat (length x_array)) test_size x_array y_array).

(** ** The sine generator *)

Section Sine.

(** [np.sin], [np.cos] and [np.pi], and the pseudo-random generator behind
    [random.random()]: a state, and the draw that returns a value in
    [0, 1) and the next state. *)
Variables (np_sin np_cos : Q -> Q) (np_pi : Q).
Variable rng : Type.
Variable random_random : rng -> Q * rng.

(** One pass of the loop body, lines 57-70: the two arrays appended to [x]
    and [y], of shapes [(train, 2)] and [(predict, 2)]. *)
Definition sine_example (train_sequence_length predict_sequence_length : Z) (st : rng)
    : result (list (list Q) * list (list Q) * rng) :=
  let '(u, st) := random_random st in
  let rand := (u * 2 * np_pi)%Q in
  l1 ← Np.linspace rand (3 * np_pi + rand)%Q (train_sequence_length + predict_sequence_length);
  let sig1 := np_sin <$> l1 in
  l2 ← Np.linspace rand (3 * np_pi + rand)%Q (train_sequence_length + predict_sequence_length);
  let sig2 := np_cos <$> l2 in
  let x1 := Py.slice None (Some train_sequence_length) sig1 in
  let y1 := Py.slice (Some train_sequence_length) None sig1 in
  let x2 := Py.slice None (Some train_sequence_length) sig2 in
  let y2 := Py.slice (Some train_sequence_length) None sig2 in
  let x_ := [x1; x2] in
  let y_ := [y1; y2] in
  Ok (Np.transpose x_, Np.transpose y_, st).

(** The loop of lines 56-70, [iterations] passes from the lists [x], [y]
    and generator state [st]. The state the loop ends in stays with the
    generator and is not part of what the function returns. *)
Fixpoint sine_loop (train_sequence_length predict_sequence_length : Z)
    (iterations : nat) (st : rng) (x y : array3 Q) : result (array3 Q * array3 Q) :=
  match iterations with
  | O => Ok (x, y)
  | S iterations =>
      '(x_T, y_T, st) ← sine_example train_sequence_length predict_sequence_length st;
      sine_loop train_sequence_length predict_sequence_length iterations st
        (x ++ [x_T]) (y ++ [y_T])
  end.

(** Lines 54-73: the arrays before the split. *)
Definition sine_arrays (train_sequence_length predict_sequence_length n_examples : Z)
    (st : rng) : result (array3 Q * array3 Q) :=
  '(x, y) ← sine_loop train_sequence_length predict_sequence_length
              (Z.to_nat n_examples) st [] [];
  x_array ← Np.array_first_channel x;
  y_array ← Np.array_first_channel y;
  Ok (x_array, y_array).

Definition get_sine (train_sequence_length predict_sequence_length : Z) (test_size : Q)
    (n_examples : Z) (st : rng) : result (dataset Q) :=
  '(x_array, y_array) ←
    sine_arrays train_sequence_length predict_sequence_length n_examples st;
  Ok (train_valid_split n_examples test_size x_array y_array).

End Sine.

(** ** The stock fetcher *)

Module Stock.

(** A [pandas.DataFrame]: its row labels, column labels and cells. *)
Record DataFrame : Type := {
  index : list string;
  columns : list string;
  values : list (list Q)
}.

(** [df.empty]: some axis has length 0. *)
Definition empty (df : DataFrame) : bool :=
  Nat.eqb (length (index df)) 0 || Nat.eqb (length (columns df)) 0.

(** What the call [yf.download(...)] does: it returns a frame or raises. *)
Inductive download : Type :=
  | Returns (data : DataFrame)
  | Raises (e : exn).

(** Lines 136-149, over the outcome of the provider call. *)
Definition get_stock_data (ticker : string) (provider : download) : result DataFrame :=
  let body :=
    match provider with
    | Raises e => Raise e
    | Returns data =>
        if empty data
        then Raise (ValueError ("No data available for ticker: " ++ ticker))
        else Ok data
    end in
  match body with
  | Ok data => Ok data
  | Raise e => Raise (ValueError ("Error retrieving stock data: " ++ str e))
  end.

End Stock.

(** ** The entry point *)

(** What [get_data] returns: the value of the generator it called. *)
Inductive data : Type :=
  | SineData (d : dataset Q)
  | AirData (d : dataset float).

Section Entry.

Variables (np_sin np_cos : Q → Q) (np_pi : Q).
Variable rng : Type.
Variable random_random : rng → Q * rng.

(** Lines 22-36. [csv] is the second column of the remote file and [st]
    the state of the random generator when the call is made; the sine
    generator is called with its default [n_examples = 100]. A failed
    [assert] raises [AssertionError]. *)
Definition get_data (csv : list Q) (st : rng) (name : string)
    (train_length predict_sequence_length : Z) (test_size : Q) : result data :=
  if negb (Qle_bool 0 test_size && Qle_bool test_size 1)
  then Raise (OtherError "AssertionError" "test_size is the ratio of test dataset")
  else if String.eqb name "sine" then
    d ← get_sine np_sin np_cos np_pi rng random_random
          train_length predict_sequence_length test_size 100 st;
    Ok (SineData d)
  else if String.eqb name "airpassengers" then
    d ← get_air_passengers csv train_length predict_sequence_length test_size;
    Ok (AirData d)
  else Raise (ValueError ("unsupported data of " ++ name
                          ++ " yet, try 'sine', 'airpassengers'")).

End Entry.

(** * Vocabulary of the properties *)

(** [count] windows of [width] rows of [v]; window [i] starts at row
    [i + off]. *)
Definition windows_at {A} (v : list (list A)) (off width count : nat) : array3 A :=
  (fun i => take width (drop (i + off) v)) <$> seq 0 count.

(** The pairs of arrays a returned value holds. *)
Definition parts {A} (d : dataset A) : list (array3 A * array3 A) :=
  match d with
  | Full x y => [(x, y)]
  | Split train valid => [train; valid]
  end.

(** [xi] is [T] consecutive rows of [series], from some row [s] on, and
    [yi] is the [P] rows that come right after them. *)
Definition follows {A} (series : list (list A)) (T P : nat)
    (xi yi : list (list A)) : Prop :=
  ∃ s : nat, (s + T + P ≤ length series)%nat ∧
    xi = take T (drop s series) ∧ yi = take P (drop (s + T) series).

(** An array of shape [(n, m, k)]. *)
Definition shape3 {A} (a : array3 A) (n m k : nat) : Prop :=
  length a = n ∧
  Forall (fun sample => length sample = m ∧ Forall (fun e => length e = k) sample) a.

(** The code does not look at the values it moves, so run on the row
    numbers [0 .. n-1] it shows where each entry of a window comes from. *)
Definition positions (n : nat) : list (list nat) := column (seq 0 n).

(** Row [r] of the stacked arrays as the trim line reads it: the input
    entries in the reversed order, then the output entries. *)
Definition source_window (n : nat) (T P : Z) (r : nat) : option (list (list nat)) :=
  match air_x_stacked (positions n) T, air_y_stacked (positions n) P with
  | Ok xs, Ok ys =>
      match xs !! r, ys !! r with
      | Some xr, Some yr => Some (reverse xr ++ yr)
      | _, _ => None
      end
  | _, _ => None
  end.

(** The entries of a window come from consecutive rows. *)
Definition consecutive (w : list (list nat)) : bool :=
  match w with
  | [] => true
  | [p] :: _ => bool_decide (w = column (seq p (length w)))
  | _ => false
  end.

(** Row [r] holds a value that a roll carried around the array boundary. *)
Definition wrapped (n : nat) (T P : Z) (r : nat) : bool :=
  match source_window n T P r with
  | Some w => negb (consecutive w)
  | None => false
  end.

(** The rows that the trim [[T:-P]] keeps, and whether it removes row [r]. *)
Definition kept (n : nat) (T P : Z) : list nat :=
  Py.slice (Some T) (Some (- P)) (seq 0 n).

Definition removed (n : nat) (T P : Z) (r : nat) : bool :=
  bool_decide (r ∉ kept n T P).

(** The trim removes exactly the wrapped rows. *)
Definition trim_exact (n : nat) (T P : Z) : Prop :=
  ∀ r, (r < n)%nat → removed n T P r = wrapped n T P r.

(** The split point is the floor of the exact product: with
    [0 < test_size <= 1] the training part holds
    [floor(n * (1 - test_size))] of the [n] examples. *)
Definition split_at_exact_floor : Prop :=
  ∀ test_size : Q, (0 < test_size)%Q → (test_size <= 1)%Q →
  ∀ np_sin np_cos np_pi rng random_random T P n st x y,
    sine_arrays np_sin np_cos np_pi rng random_random T P n st = Ok (x, y) →
    ∃ x_train y_train valid,
      get_sine np_sin np_cos np_pi rng random_random T P test_size n st
      = Ok (Split (x_train, y_train) valid) ∧
      Z.of_nat (length x_train) = Qfloor (inject_Z n * (1 - test_size)).

(** The returned inputs keep both channels. *)
Definition inputs_keep_two_channels : Prop :=
  ∀ np_sin np_cos np_pi rng random_random T P test_size n_examples st d,
    get_sine np_sin np_cos np_pi rng random_random T P test_size n_examples st = Ok d →
    ∀ x y, (x, y) ∈ parts d → Forall (Forall (fun e => length e = 2%nat)) x.

(** [sub] occurs in [s]. *)
Definition contains (sub s : string) : Prop :=
  ∃ pre post, s = (pre ++ sub ++ post)%string.

(** All the examples of a returned value, in order: the training examples
    followed by the validation examples when there is a split. *)
Definition examples {A} (d : dataset A) : array3 A * array3 A :=
  match d with
  | Full x y => (x, y)
  | Split (x_train, y_train) (x_valid, y_valid) =>
      (x_train ++ x_valid, y_train ++ y_valid)
  end.

(** An entry of the rescaled series: one number between -1 and 0. *)
Definition in_unit_below (e : list float) : Prop :=
  ∃ q, e = [Num q] ∧ (-1 <= q <= 0)%Q.

Section SineCurves.

Variables (np_sin np_cos : Q → Q) (np_pi : Q).
Variable rng : Type.
Variable random_random : rng → Q * rng.
Implicit Types (T P : Z) (st : rng) (u : Q).

(** The values the next [k] calls of [random.random()] return. *)
Fixpoint draws (k : nat) (st : rng) : list Q :=
  match k with
  | O => []
  | S k => let '(u, st) := random_random st in u :: draws k st
  end.

(** The two curves of an example whose draw is [u] (lines 57-59). *)
Definition phase (u : Q) : Q := (u * 2 * np_pi)%Q.

Definition sig1 T P u : list Q :=
  np_sin <$> Np.linspace_samples (phase u) (3 * np_pi + phase u)%Q (T + P).

Definition sig2 T P u : list Q :=
  np_cos <$> Np.linspace_samples (phase u) (3 * np_pi + phase u)%Q (T + P).

(** The two-channel arrays appended to [x] and [y] (lines 61-70). *)
Definition sample_x T P u : list (list Q) :=
  Np.transpose [Py.slice None (Some T) (sig1 T P u); Py.slice None (Some T) (sig2 T P u)].

Definition sample_y T P u : list (list Q) :=
  Np.transpose [Py.slice (Some T) None (sig1 T P u); Py.slice (Some T) None (sig2 T P u)].

End SineCurves.

(** Concrete inputs: a 150-row column, of which the generator reads the
    first 144 rows, and a small generator with polynomial curves. *)
Definition ramp : list Q := (fun i => inject_Z (Z.of_nat i)) <$> seq 104 150.

Definition sin3 (t : Q) : Q := (t - t * t * t / 6)%Q.
Definition cos2 (t : Q) : Q := (1 - t * t / 2)%Q.
Definition pi_approx : Q := (355 # 113)%Q.
Definition lcg (s : nat) : Q * nat :=
  (Z.of_nat (s mod 16) # 16, ((5 * s + 3) mod 16)%nat).

(** The first twelve rows of the air-passenger column. *)
Definition first_year : list Q :=
  [112; 118; 132; 129; 121; 135; 148; 148; 136; 119; 104; 118]%Q.

(** * Facts about the primitives *)

(** The primitives on small inputs, as Python and NumPy evaluate them. *)
Example roll_to_the_right : Np.roll 1 [0; 1; 2; 3; 4]%nat = [4; 0; 1; 2; 3]%nat.
Proof. reflexivity. Qed.

Example roll_to_the_left : Np.roll (-2) [0; 1; 2; 3; 4]%nat = [2; 3; 4; 0; 1]%nat.
Proof. reflexivity. Qed.

Example roll_past_the_length : Np.roll 7 [0; 1; 2; 3; 4]%nat = [3; 4; 0; 1; 2]%nat.
Proof. reflexivity. Qed.

Example slice_from_both_ends :
  Py.slice (Some 2) (Some (-1)) [0; 1; 2; 3; 4; 5]%nat = [2; 3; 4]%nat.
Proof. reflexivity. Qed.

Example slice_to_minus_zero : Py.slice (Some 1) (Some (- 0)) [0; 1; 2; 3]%nat = [].
Proof. reflexivity. Qed.

Example slice_clamped : Py.slice (Some (-9)) (Some 9) [0; 1; 2]%nat = [0; 1; 2]%nat.
Proof. reflexivity. Qed.

Example stack_two_columns :
  Np.stack_axis1 [column [1; 2; 3]%nat; column [4; 5; 6]%nat]
  = Ok [[[1]; [4]]; [[2]; [5]]; [[3]; [6]]]%nat.
Proof. reflexivity. Qed.

Example stack_nothing : Np.stack_axis1 (B:=nat) []
  = Raise (ValueError "need at least one array to stack").
Proof. reflexivity. Qed.

Example linspace_four : Np.linspace 0 3 4 = Ok [0 # 3; 3 # 3; 6 # 3; 3]%Q.
Proof. reflexivity. Qed.

Example int_truncates : Py.int (-7 # 2) = -3 ∧ Py.int (7 # 2) = 3.
Proof. split; reflexivity. Qed.

(** binary64 rounding: the floats nearest to 0.1 and to 0.9, an integer
    beyond 53 bits, and the split points [int(n * (1 - test_size))] Python
    computes for 0.9, 0.8 and 0.1. *)
Example round_one_tenth :
  Float64.round (1 # 10) = 7205759403792794 # 72057594037927936.
Proof. reflexivity. Qed.

Example round_nine_tenths :
  Float64.round (9 # 10) = 8106479329266893 # 9007199254740992.
Proof. reflexivity. Qed.

Example round_2_60_plus_1 : (Float64.round (inject_Z (2 ^ 60 + 1)) == inject_Z (2 ^ 60))%Q.
Proof. reflexivity. Qed.

Example round_of_float_is_itself :
  (Float64.round (Float64.round (1 # 10)) == Float64.round (1 # 10))%Q.
Proof. reflexivity. Qed.

Example split_points :
  Py.int (Float64.mul (Float64.of_int 10) (Float64.sub 1 (Float64.round (9 # 10)))) = 0 ∧
  Py.int (Float64.mul (Float64.of_int 100) (Float64.sub 1 (Float64.round (8 # 10)))) = 19 ∧
  Py.int (Float64.mul (Float64.of_int 100) (Float64.sub 1 (Float64.round (1 # 10)))) = 90 ∧
  Py.int (Float64.mul (Float64.of_int 100) (Float64.sub 1 (Float64.round (2 # 10)))) = 80.
Proof. repeat split; reflexivity. Qed.

Example linspace_negative :
  Np.linspace 0 1 (-3) = Raise (ValueError "Number of samples, -3, must be non-negative.").
Proof. reflexivity. Qed.

(** Eight rows, windows of lengths 3 and 2: three examples, the last one
    pairing rows 2..4 with rows 5..6. *)
Example air_windows_of_eight :
  air_windows (column [10; 20; 30; 40; 50; 60; 70; 80]%nat) 3 2
  = Ok ([[[10]; [20]; [30]]; [[20]; [30]; [40]]; [[30]; [40]; [50]]],
        [[[40]; [50]]; [[50]; [60]]; [[60]; [70]]])%nat.
Proof. reflexivity. Qed.

Section Slices.
Context {A : Type}.
Implicit Types (l : list A) (k : Z).

(** [l[:k]] and [l[k:]] for a bound that is not negative. *)
Lemma slice_prefix k l :
  0 ≤ k → Py.slice None (Some k) l = take (Z.to_nat k) l.
Proof.
  intros Hk. unfold Py.slice, Py.slice_bound; simpl.
  destruct (Z.ltb_spec k 0); [lia|].
  rewrite drop_0, Z.sub_0_r.
  destruct (Z.min_spec k (Z.of_nat (length l))) as [[? ->]|[? ->]]; [done|].
  rewrite Nat2Z.id, !take_ge; [done | lia..].
Qed.

Lemma slice_suffix k l :
  0 ≤ k → Py.slice (Some k) None l = drop (Z.to_nat k) l.
Proof.
  intros Hk. unfold Py.slice, Py.slice_bound; simpl.
  destruct (Z.ltb_spec k 0); [lia|].
  destruct (Z.min_spec k (Z.of_nat (length l))) as [[? ->]|[? ->]].
  - apply take_ge. rewrite length_drop. lia.
  - rewrite Z.sub_diag, Nat2Z.id. simpl. rewrite take_0, drop_ge; [done | lia].
Qed.

(** [l[t:-p]], the trim of the air-passenger generator. *)
Lemma slice_trim (t p : Z) l :
  0 ≤ t → 0 < p →
  Py.slice (Some t) (Some (- p)) l
  = take (length l - Z.to_nat p - Z.to_nat t) (drop (Z.to_nat t) l).
Proof.
  intros Ht Hp. unfold Py.slice, Py.slice_bound; simpl.
  destruct (Z.ltb_spec t 0); [lia|]. destruct (Z.ltb_spec (- p) 0); [|lia].
  destruct (Z.min_spec t (Z.of_nat (length l))) as [[? ->]|[? ->]].
  - f_equal. lia.
  - rewrite Nat2Z.id, !drop_ge by lia. by rewrite !take_nil.
Qed.

Lemma slice_split k l :
  0 ≤ k → Py.slice None (Some k) l ++ Py.slice (Some k) None l = l.
Proof. intros. rewrite slice_prefix, slice_suffix by done. apply take_drop. Qed.
End Slices.

Section Rolls.
Context {B : Type}.
Implicit Types (a : list B) (i : nat).

Lemma roll_length (shift : Z) a : length (Np.roll shift a) = length a.
Proof.
  unfold Np.roll. destruct (Z.eqb_spec (Z.of_nat (length a)) 0); [done|].
  rewrite length_app, length_drop, length_take. lia.
Qed.

(** Element [i] of [np.roll(a, shift)] is element [(i - shift) mod n]. *)
Lemma roll_lookup (shift : Z) a i :
  (i < length a)%nat →
  Np.roll shift a !! i
  = a !! Z.to_nat ((Z.of_nat i - shift) mod Z.of_nat (length a)).
Proof.
  intros Hi. unfold Np.roll.
  set (n := Z.of_nat (length a)).
  destruct (Z.eqb_spec n 0); [lia|].
  assert (Hm : 0 ≤ shift mod n < n) by (apply Z.mod_pos_bound; lia).
  pose proof (Z.div_mod shift n ltac:(lia)) as Hdm.
  destruct (decide (Z.of_nat i < shift mod n)) as [Hlt|Hge].
  - rewrite lookup_app_l by (rewrite length_drop; lia).
    rewrite lookup_drop. f_equal.
    rewrite <- (Z.mod_unique (Z.of_nat i - shift) n (- (shift / n) - 1)
                  (n - shift mod n + Z.of_nat i)); lia.
  - rewrite lookup_app_r by (rewrite length_drop; lia).
    rewrite length_drop, lookup_take_lt by lia. f_equal.
    rewrite <- (Z.mod_unique (Z.of_nat i - shift) n (- (shift / n))
                  (Z.of_nat i - shift mod n)); lia.
Qed.

(** A roll toward the end, read past the wrapped part. *)
Lemma roll_lookup_back (k : Z) a i :
  0 ≤ k ≤ Z.of_nat i → (i < length a)%nat →
  Np.roll k a !! i = a !! (i - Z.to_nat k)%nat.
Proof.
  intros Hk Hi. rewrite roll_lookup by done. f_equal.
  rewrite Z.mod_small by lia. lia.
Qed.

(** A roll toward the start, read before the wrapped part. *)
Lemma roll_lookup_fwd (k : Z) a i :
  0 ≤ k → (i + Z.to_nat k < length a)%nat →
  Np.roll (- k) a !! i = a !! (i + Z.to_nat k)%nat.
Proof.
  intros Hk Hi. rewrite roll_lookup by lia. f_equal.
  rewrite Z.mod_small by lia. lia.
Qed.
End Rolls.

Section Columns.
Context {A : Type}.
Implicit Types (s : list A).

Lemma column_length s : length (column s) = length s.
Proof. apply length_fmap. Qed.

Lemma concat_column s : concat (column s) = s.
Proof. induction s as [|e s IH]; simpl; [done | by rewrite IH]. Qed.

Lemma column_take n s : column (take n s) = take n (column s).
Proof. apply fmap_take. Qed.

Lemma column_drop n s : column (drop n s) = drop n (column s).
Proof. apply fmap_drop. Qed.

(** On an array of shape [(n, 1)] the roll of the flattened array is the
    roll along axis 0. *)
Lemma roll_flat_column (shift : Z) s :
  Np.roll_flat shift (column s) = Np.roll shift (column s).
Proof.
  unfold Np.roll_flat, Np.roll. rewrite concat_column, column_length.
  destruct (Z.of_nat (length s) =? 0); [done|].
  unfold column. by rewrite fmap_app, fmap_drop, fmap_take.
Qed.
End Columns.

Section Stacks.
Context {B : Type}.
Implicit Types (arrays : list (list B)) (row : list B).

Lemma columns_length arrays n :
  Forall (fun a => length a = n) arrays →
  length (foldr (zip_with cons) (replicate n []) arrays) = n.
Proof.
  induction 1 as [|a arrays Ha _ IH]; simpl.
  - apply length_replicate.
  - rewrite length_zip_with, IH, Ha. lia.
Qed.

Lemma columns_lookup arrays n i row :
  Forall (fun a => length a = n) arrays → (i < n)%nat →
  Forall2 (fun a e => a !! i = Some e) arrays row →
  foldr (zip_with cons) (replicate n []) arrays !! i = Some row.
Proof.
  intros Hlen Hi Hrow. induction Hrow as [|a e arrays row Hae _ IH]; simpl.
  - by apply lookup_replicate_2.
  - apply Forall_cons in Hlen as [_ Hlen].
    by rewrite lookup_zip_with, Hae, (IH Hlen).
Qed.

Lemma same_length_check arrays n :
  Forall (fun a => length a = n) arrays →
  forallb (fun a => Nat.eqb (length a) n) arrays = true.
Proof.
  induction 1 as [|a arrays Ha _ IH]; simpl; [done|].
  rewrite IH, Ha, Nat.eqb_refl. done.
Qed.

(** Stacking a non-empty list of arrays of one length [n] succeeds, gives
    [n] rows, and row [i] lists the [i]-th elements. *)
Lemma stack_axis1_rows arrays n :
  arrays ≠ [] → Forall (fun a => length a = n) arrays →
  ∃ s, Np.stack_axis1 arrays = Ok s ∧ length s = n ∧
    ∀ i row, Forall2 (fun a e => a !! i = Some e) arrays row →
             s !! i = Some row.
Proof.
  intros Hne Hlen. destruct arrays as [|a0 arrays]; [done|].
  assert (length a0 = n) as Ha0 by (by apply Forall_cons in Hlen as [? _]).
  unfold Np.stack_axis1, Np.transpose. rewrite Ha0, same_length_check by done.
  eexists; split; [done|]. split; [by apply columns_length|].
  intros i row Hrow. apply columns_lookup; [done| |done].
  inversion Hrow as [|? e ? ? Hae]; subst.
  apply lookup_lt_Some in Hae. lia.
Qed.
End Stacks.

Lemma range_length a b : length (Py.range a b) = Z.to_nat (b - a).
Proof. unfold Py.range. by rewrite length_fmap, length_seq. Qed.

Lemma range_lookup a b (i : nat) :
  (i < Z.to_nat (b - a))%nat → Py.range a b !! i = Some (a + Z.of_nat i).
Proof.
  intros Hi. unfold Py.range. by rewrite list_lookup_fmap, lookup_seq_lt.
Qed.

Lemma range_lookup_Some a b (i : nat) k :
  Py.range a b !! i = Some k → k = a + Z.of_nat i ∧ (i < Z.to_nat (b - a))%nat.
Proof.
  intros Hk. assert (i < Z.to_nat (b - a))%nat as Hi.
  { rewrite <- range_length. by eapply lookup_lt_Some. }
  rewrite range_lookup in Hk by done. by simplify_eq.
Qed.

(** * The windows of the air-passenger generator *)

Section AirWindows.
Context {A : Type}.
Implicit Types (v : list (list A)) (s : list A) (T P : Z) (r : nat).

(** Row [r] of the stacked input rolls, for a row past the wrapped ones:
    the [T] rows of [v] before row [r], latest first. *)
Lemma air_x_stacked_rows v T :
  1 ≤ T →
  ∃ xs, air_x_stacked v T = Ok xs ∧ length xs = length v ∧
    ∀ r, (Z.to_nat T ≤ r < length v)%nat →
         xs !! r = Some (reverse (take (Z.to_nat T) (drop (r - Z.to_nat T) v))).
Proof.
  intros HT. unfold air_x_stacked.
  destruct (stack_axis1_rows
              ((fun seq => Np.roll seq v) <$> Py.range 1 (T + 1)) (length v))
    as (xs & Hxs & Hlen & Hrows).
  { intros Hnil. apply (f_equal length) in Hnil.
    rewrite length_fmap, range_length in Hnil. simpl in Hnil. lia. }
  { apply Forall_fmap, Forall_forall. intros seq _. apply roll_length. }
  exists xs. split; [done|]. split; [done|]. intros r Hr. apply Hrows.
  apply Forall2_fmap_l, Forall2_same_length_lookup_2.
  { rewrite range_length, length_reverse, length_take, length_drop. lia. }
  intros p seq e Hseq He. apply range_lookup_Some in Hseq as [-> Hp].
  simpl. rewrite roll_lookup_back by lia. rewrite <- He.
  rewrite reverse_lookup by (rewrite length_take, length_drop; lia).
  rewrite length_take, length_drop, lookup_take_lt, lookup_drop by lia.
  f_equal. lia.
Qed.

(** Row [r] of the stacked output rolls, for a row before the wrapped
    ones: the [P] values of [s] from position [r] on. *)
Lemma air_y_stacked_rows s P :
  1 ≤ P →
  ∃ ys, air_y_stacked (column s) P = Ok ys ∧ length ys = length s ∧
    ∀ r, (r + Z.to_nat P ≤ length s)%nat →
         ys !! r = Some (take (Z.to_nat P) (drop r (column s))).
Proof.
  intros HP. unfold air_y_stacked.
  destruct (stack_axis1_rows
              ((fun seq => Np.roll_flat (- seq) (column s)) <$> Py.range 0 P)
              (length s))
    as (ys & Hys & Hlen & Hrows).
  { intros Hnil. apply (f_equal length) in Hnil.
    rewrite length_fmap, range_length in Hnil. simpl in Hnil. lia. }
  { apply Forall_fmap, Forall_forall. intros seq _. simpl.
    by rewrite roll_flat_column, roll_length, column_length. }
  exists ys. split; [done|]. split; [done|]. intros r Hr. apply Hrows.
  apply Forall2_fmap_l, Forall2_same_length_lookup_2.
  { rewrite range_length, length_take, length_drop, column_length. lia. }
  intros p seq e Hseq He. apply range_lookup_Some in Hseq as [-> Hp].
  simpl. rewrite roll_flat_column.
  rewrite roll_lookup_fwd by (rewrite ?column_length; lia). rewrite <- He.
  rewrite lookup_take_lt, lookup_drop by lia. f_equal. lia.
Qed.
End AirWindows.

Section AirArrays.
Context {A : Type}.
Implicit Types (s : list A) (T P : Z).

Lemma windows_at_length (v : list (list A)) off width count :
  length (windows_at v off width count) = count.
Proof. unfold windows_at. by rewrite length_fmap, length_seq. Qed.

Lemma windows_at_lookup (v : list (list A)) off width count i :
  (i < count)%nat →
  windows_at v off width count !! i = Some (take width (drop (i + off) v)).
Proof.
  intros Hi. unfold windows_at. by rewrite list_lookup_fmap, lookup_seq_lt.
Qed.

Lemma windows_at_lookup_Some (v : list (list A)) off width count i w :
  windows_at v off width count !! i = Some w →
  (i < count)%nat ∧ w = take width (drop (i + off) v).
Proof.
  intros Hw. assert (i < count)%nat as Hi.
  { rewrite <- (windows_at_length v off width count). by eapply lookup_lt_Some. }
  rewrite windows_at_lookup in Hw by done. by simplify_eq.
Qed.

(** The windows in closed form: with [n] rows in [v], there are
    [n - P - T] examples; input [i] is rows [i .. i+T-1] of [v] and output
    [i] is rows [i+T .. i+T+P-1]. *)
Lemma air_windows_eq s T P :
  1 ≤ T → 1 ≤ P →
  air_windows (column s) T P
  = Ok (windows_at (column s) 0 (Z.to_nat T) (length s - Z.to_nat P - Z.to_nat T),
        windows_at (column s) (Z.to_nat T) (Z.to_nat P)
                   (length s - Z.to_nat P - Z.to_nat T)).
Proof.
  intros HT HP. unfold air_windows.
  destruct (air_x_stacked_rows (column s) T HT) as (xs & -> & Hxlen & Hxs).
  destruct (air_y_stacked_rows s P HP) as (ys & -> & Hylen & Hys).
  rewrite column_length in Hxlen, Hxs. simpl.
  rewrite !slice_trim, Hxlen, Hylen by lia.
  set (m := (length s - Z.to_nat P - Z.to_nat T)%nat).
  do 2 f_equal; apply list_eq; intros i.
  - rewrite list_lookup_fmap, lookup_take, lookup_drop.
    destruct (decide (i < m)%nat) as [Hi|Hi].
    + rewrite Hxs, windows_at_lookup by lia. simpl.
      rewrite reverse_involutive. do 3 f_equal. lia.
    + symmetry. apply lookup_ge_None. rewrite windows_at_length. lia.
  - rewrite lookup_take, lookup_drop.
    destruct (decide (i < m)%nat) as [Hi|Hi].
    + rewrite Hys, windows_at_lookup by lia. do 3 f_equal. lia.
    + symmetry. apply lookup_ge_None. rewrite windows_at_length. lia.
Qed.

(** The windows cannot be built for a window length below 1. *)
Lemma air_windows_short_train (v : list (list A)) T P :
  T < 1 → air_windows v T P = Raise (ValueError "need at least one array to stack").
Proof.
  intros HT. unfold air_windows, air_x_stacked, Py.range.
  replace (Z.to_nat (T + 1 - 1)) with 0%nat by lia. done.
Qed.

Lemma air_windows_short_predict (v : list (list A)) T P :
  P < 1 → ∃ e, air_windows v T P = Raise e.
Proof.
  intros HP. unfold air_windows.
  destruct (air_x_stacked v T) as [xs|e]; simpl; [|by eexists].
  unfold air_y_stacked, Py.range.
  replace (Z.to_nat (P - 0)) with 0%nat by lia. simpl. by eexists.
Qed.
End AirArrays.

(** The rescaled series: the first 144 values of the column, rescaled with
    their maximum and minimum. *)
Lemma air_values_eq csv :
  take 144 csv ≠ [] →
  ∃ hi lo, Np.max (take 144 csv) = Ok hi ∧ Np.min (take 144 csv) = Ok lo ∧
    air_values csv = Ok (column (scale hi lo <$> take 144 csv)).
Proof.
  intros Hne. unfold air_values. rewrite (concat_column (take 144 csv)).
  destruct (take 144 csv) as [|a df] eqn:Hdf; [done|].
  exists (foldl Qmax a df), (foldl Qmin a df). split; [done|]. split; [done|].
  simpl. unfold column. by rewrite <- !list_fmap_compose.
Qed.

Lemma air_values_empty csv :
  take 144 csv = [] → ∃ e, air_values csv = Raise e.
Proof. intros Hnil. unfold air_values. rewrite Hnil. simpl. by eexists. Qed.

(** Every successful run of the window construction is an instance of the
    closed form. *)
Lemma air_arrays_Ok csv T P x y :
  air_arrays csv T P = Ok (x, y) →
  ∃ s, air_values csv = Ok (column s) ∧ length s = length (take 144 csv) ∧
       1 ≤ T ∧ 1 ≤ P ∧
       x = windows_at (column s) 0 (Z.to_nat T) (length s - Z.to_nat P - Z.to_nat T) ∧
       y = windows_at (column s) (Z.to_nat T) (Z.to_nat P)
                      (length s - Z.to_nat P - Z.to_nat T).
Proof.
  unfold air_arrays. intros Hxy.
  destruct (decide (take 144 csv = [])) as [Hnil|Hne].
  { destruct (air_values_empty csv Hnil) as [e He]. by rewrite He in Hxy. }
  destruct (air_values_eq csv Hne) as (hi & lo & _ & _ & Hv).
  rewrite Hv in Hxy. simpl in Hxy.
  destruct (Z.lt_ge_cases T 1) as [HT|HT].
  { by rewrite air_windows_short_train in Hxy. }
  destruct (Z.lt_ge_cases P 1) as [HP|HP].
  { destruct (air_windows_short_predict (column (scale hi lo <$> take 144 csv)) T P HP)
      as [e He]. by rewrite He in Hxy. }
  rewrite air_windows_eq in Hxy by done. simplify_eq.
  eexists. split; [done|]. by rewrite length_fmap.
Qed.

(** * The split *)

Lemma ltb_true (a b : Q) : (a < b)%Q → Py.ltb a b = true.
Proof.
  intros Hab. unfold Py.ltb. destruct (Qle_bool b a) eqn:Hle; [|done].
  apply Qle_bool_iff in Hle. lra.
Qed.

Lemma ltb_false (a b : Q) : (b <= a)%Q → Py.ltb a b = false.
Proof.
  intros Hab. unfold Py.ltb. apply Qle_bool_iff in Hab. by rewrite Hab.
Qed.

(** On a float that is not negative, [int] is the floor. *)
Lemma int_floor (q : Q) : (0 <= q)%Q → Py.int q = Qfloor q.
Proof.
  destruct q as [num den]. unfold Qle, Py.int, Qfloor; simpl. intros Hq.
  apply Z.quot_div_nonneg; lia.
Qed.

Lemma nearest_even_nonneg a b : 0 ≤ a → 0 < b → 0 ≤ Float64.nearest_even a b.
Proof.
  intros Ha Hb. unfold Float64.nearest_even. cbv zeta.
  pose proof (Z.div_pos a b Ha Hb).
  destruct (2 * (a mod b) ?= b); [destruct (Z.even (a / b))| |]; lia.
Qed.

(** Rounding to the nearest integer does not pass an integer bound. *)
Lemma nearest_even_le a b K :
  0 ≤ a → 0 < b → a ≤ K * b → Float64.nearest_even a b ≤ K.
Proof.
  intros Ha Hb HK. unfold Float64.nearest_even. cbv zeta.
  pose proof (Z.div_mod a b ltac:(lia)) as Hdm.
  pose proof (Z.mod_pos_bound a b Hb) as Hr.
  destruct (Z.le_gt_cases K (a / b)) as [Hq|Hq].
  - assert (a / b ≤ K) by (apply Z.div_le_upper_bound; lia).
    assert (a / b = K) as HqK by lia.
    assert (a mod b = 0) as Hr0 by (rewrite HqK in Hdm; lia).
    rewrite Hr0, HqK, Z.mul_0_r, (proj2 (Z.compare_lt_iff 0 b) Hb). lia.
  - destruct (2 * (a mod b) ?= b); [destruct (Z.even (a / b))| |]; lia.
Qed.

(** The exponent [Float64.round] settles on leaves the significand at least
    [2^52]. *)
Lemma exponent_enough a b :
  0 < a → 0 < b →
  let e0 := Z.log2 a - Z.log2 b - 52 in
  let e := if a * 2 ^ Z.max 0 (- e0) <? 2 ^ 52 * (b * 2 ^ Z.max 0 e0)
           then e0 - 1 else e0 in
  2 ^ 52 * (b * 2 ^ Z.max 0 e) ≤ a * 2 ^ Z.max 0 (- e).
Proof.
  intros Ha Hb e0 e.
  destruct (Z.log2_spec a Ha) as [Hla _]. destruct (Z.log2_spec b Hb) as [_ Hlb].
  pose proof (Z.log2_nonneg a) as Hna. pose proof (Z.log2_nonneg b) as Hnb.
  subst e.
  destruct (Z.ltb_spec (a * 2 ^ Z.max 0 (- e0)) (2 ^ 52 * (b * 2 ^ Z.max 0 e0)))
    as [Hlt|Hge]; [|exact Hge].
  rewrite Z.pow_succ_r in Hlb by lia.
  destruct (Z.le_gt_cases e0 0) as [He0|He0].
  - replace (Z.max 0 (e0 - 1)) with 0 by lia.
    replace (Z.max 0 (- (e0 - 1))) with (- e0 + 1) by lia.
    rewrite Z.pow_0_r, Z.mul_1_r, Z.pow_add_r by lia.
    assert (2 ^ 52 * b ≤ 2 * (2 ^ Z.log2 a * 2 ^ (- e0))) as Hkey.
    { rewrite <- Z.pow_add_r by lia.
      replace (Z.log2 a + - e0) with (Z.log2 b + 52) by (unfold e0; lia).
      rewrite Z.pow_add_r by lia. nia. }
    assert (0 < 2 ^ (- e0)) by (apply Z.pow_pos_nonneg; lia).
    change (2 ^ 1) with 2. nia.
  - replace (Z.max 0 (e0 - 1)) with (e0 - 1) by lia.
    replace (Z.max 0 (- (e0 - 1))) with 0 by lia.
    rewrite Z.pow_0_r, Z.mul_1_r.
    assert (2 ^ 52 * (b * 2 ^ (e0 - 1)) ≤ 2 ^ Z.log2 a) as Hkey; [|lia].
    replace (Z.log2 a) with (Z.log2 b + 1 + 52 + (e0 - 1)) by (unfold e0; lia).
    rewrite !Z.pow_add_r by lia.
    assert (0 < 2 ^ (e0 - 1)) by (apply Z.pow_pos_nonneg; lia).
    change (2 ^ 1) with 2. change (2 ^ 52) with 4503599627370496. nia.
Qed.

(** Rounding keeps the sign. *)
Lemma round_nonneg q : (0 <= q)%Q → (0 <= Float64.round q)%Q.
Proof.
  intros Hq. unfold Float64.round.
  destruct (Z.abs (Qnum q) =? 0); [apply Qle_refl|].
  unfold Qle in *. simpl in *. rewrite Z.mul_1_r in *.
  set (e := if _ <? _ then _ else _).
  assert (0 ≤ Float64.nearest_even (Z.abs (Qnum q) * 2 ^ Z.max 0 (- e))
                                   (Z.pos (Qden q) * 2 ^ Z.max 0 e)).
  { apply nearest_even_nonneg.
    - apply Z.mul_nonneg_nonneg; [lia|]. apply Z.pow_nonneg. lia.
    - apply Z.mul_pos_pos; [lia|]. apply Z.pow_pos_nonneg; lia. }
  assert (0 ≤ 2 ^ Z.max 0 e) by (apply Z.pow_nonneg; lia).
  assert (0 ≤ Z.sgn (Qnum q)) by lia.
  apply Z.mul_nonneg_nonneg; [apply Z.mul_nonneg_nonneg|]; assumption.
Qed.

(** Rounding does not pass an integer below [2^53]: such an integer is a
    binary64 value itself. *)
Lemma round_le_int q N :
  (0 <= q)%Q → (q <= inject_Z N)%Q → N < 2 ^ 53 →
  (Float64.round q <= inject_Z N)%Q.
Proof.
  intros Hq HN Hbig. unfold Float64.round.
  destruct (Z.eqb_spec (Z.abs (Qnum q)) 0) as [Hz|Hnz].
  { unfold Qle in *. simpl in *. lia. }
  destruct q as [a b]. unfold Qle in *. simpl in *.
  rewrite Z.mul_1_r in *.
  assert (0 < a) as Ha by lia.
  rewrite (Z.abs_eq a), (Z.sgn_pos a) by lia.
  pose proof (exponent_enough a (Z.pos b) Ha ltac:(lia)) as Hexp. simpl in Hexp.
  set (e := if _ <? _ then _ else _) in *.
  assert (e ≤ 0) as He.
  { destruct (Z.le_gt_cases e 0) as [|Hpos]; [done|exfalso].
    replace (Z.max 0 e) with (1 + (e - 1)) in Hexp by lia.
    replace (Z.max 0 (- e)) with 0 in Hexp by lia.
    rewrite Z.pow_add_r in Hexp by lia.
    assert (0 < 2 ^ (e - 1)) by (apply Z.pow_pos_nonneg; lia).
    change (2 ^ 1) with 2 in Hexp. change (2 ^ 52) with 4503599627370496 in Hexp.
    change (2 ^ 53) with 9007199254740992 in Hbig. nia. }
  replace (Z.max 0 e) with 0 by lia. replace (Z.max 0 (- e)) with (- e) by lia.
  rewrite Z.pow_0_r, !Z.mul_1_r, Z.mul_1_l.
  assert (0 < 2 ^ (- e)) as Hp by (apply Z.pow_pos_nonneg; lia).
  rewrite Z2Pos.id by done.
  apply nearest_even_le; [nia | lia | nia].
Qed.

(** The product [n * (1 - test_size)] as the code computes it is not
    negative for a [test_size] of at most 1, and not above [n] for a
    [test_size] that is not negative. *)
Lemma split_product_nonneg (n : Z) (test_size : Q) :
  0 ≤ n → (test_size <= 1)%Q →
  (0 <= Float64.mul (Float64.of_int n) (Float64.sub 1 test_size))%Q.
Proof.
  intros Hn H1. apply round_nonneg. apply Qmult_le_0_compat; apply round_nonneg.
  - change 0%Q with (inject_Z 0). by rewrite <- Zle_Qle.
  - lra.
Qed.

Lemma split_product_le (n : Z) (test_size : Q) :
  0 ≤ n → n < 2 ^ 53 → (0 <= test_size)%Q → (test_size <= 1)%Q →
  (Float64.mul (Float64.of_int n) (Float64.sub 1 test_size) <= inject_Z n)%Q.
Proof.
  intros Hn Hbig H0 H1.
  assert (0 <= inject_Z n)%Q as Hn' by (change 0%Q with (inject_Z 0); by rewrite <- Zle_Qle).
  pose proof (round_nonneg (inject_Z n) Hn') as Ha0.
  pose proof (round_le_int (inject_Z n) n Hn' (Qle_refl _) Hbig) as Ha1.
  pose proof (round_nonneg (1 - test_size) ltac:(lra)) as Hb0.
  assert (1 - test_size <= inject_Z 1)%Q as Hone
    by (change (inject_Z 1) with 1%Q; lra).
  pose proof (round_le_int (1 - test_size) 1 ltac:(lra) Hone ltac:(done)) as Hb1.
  apply round_le_int; [| |done].
  - by apply Qmult_le_0_compat.
  - fold (Float64.of_int n) in *. fold (Float64.sub 1 test_size) in *.
    change (inject_Z 1) with 1%Q in Hb1. nra.
Qed.

Lemma split_point_bounds (n : Z) (test_size : Q) :
  0 ≤ n → n < 2 ^ 53 → (0 <= test_size)%Q → (test_size <= 1)%Q →
  0 ≤ Qfloor (Float64.mul (Float64.of_int n) (Float64.sub 1 test_size)) ≤ n.
Proof.
  intros Hn Hbig H0 H1. split.
  - change 0 with (Qfloor 0). apply Qfloor_resp_le. by apply split_product_nonneg.
  - rewrite <- (Qfloor_Z n) at 2. apply Qfloor_resp_le. by apply split_product_le.
Qed.

(** With a positive [test_size] of at most 1, the split is the prefix and
    the suffix of the examples at the floor of the product the code
    computes. *)
Lemma train_valid_split_cut {A} (n : Z) (test_size : Q) (x y : array3 A) :
  0 ≤ n → (0 < test_size)%Q → (test_size <= 1)%Q →
  let k := Z.to_nat (Qfloor (Float64.mul (Float64.of_int n) (Float64.sub 1 test_size))) in
  train_valid_split n test_size x y
  = Split (take k x, take k y) (drop k x, drop k y).
Proof.
  intros Hn H0 H1 k. unfold train_valid_split.
  pose proof (split_product_nonneg n test_size Hn H1) as Hq.
  assert (0 ≤ Qfloor (Float64.mul (Float64.of_int n) (Float64.sub 1 test_size))) as Hk.
  { change 0 with (Qfloor 0). by apply Qfloor_resp_le. }
  rewrite ltb_true, int_floor by done.
  by rewrite !slice_prefix, !slice_suffix.
Qed.

Lemma train_valid_split_full {A} (n : Z) (test_size : Q) (x y : array3 A) :
  (test_size == 0)%Q → train_valid_split n test_size x y = Full x y.
Proof.
  intros H0. unfold train_valid_split. rewrite ltb_false; [done|]. by rewrite H0.
Qed.

Lemma slice_bound_range (n i : Z) : 0 ≤ n → 0 ≤ Py.slice_bound n i ≤ n.
Proof.
  intros Hn. unfold Py.slice_bound. destruct (Z.ltb_spec i 0).
  - destruct (Z.max_spec (i + n) 0) as [[? ->]|[? ->]]; lia.
  - destruct (Z.min_spec i n) as [[? ->]|[? ->]]; lia.
Qed.

(** [l[:k] + l[k:] == l] for every integer [k], negative ones included. *)
Lemma slice_split_any {A} (k : Z) (l : list A) :
  Py.slice None (Some k) l ++ Py.slice (Some k) None l = l.
Proof.
  unfold Py.slice; simpl.
  pose proof (slice_bound_range (Z.of_nat (length l)) k ltac:(lia)) as Hb.
  rewrite drop_0, Z.sub_0_r.
  rewrite (take_ge (drop _ l)) by (rewrite length_drop; lia).
  apply take_drop.
Qed.

Lemma train_valid_split_examples {A} (n : Z) (test_size : Q) (x y : array3 A) :
  examples (train_valid_split n test_size x y) = (x, y).
Proof.
  unfold train_valid_split. destruct (Py.ltb 0 test_size); simpl; [|done].
  by rewrite !slice_split_any.
Qed.

(** * The examples of the sine generator *)

Lemma linspace_samples_length (start stop : Q) (num : Z) :
  length (Np.linspace_samples start stop num) = Z.to_nat num.
Proof.
  unfold Np.linspace_samples.
  destruct (1 <? num), (0 <? num - 1);
    rewrite ?length_insert, !length_fmap, range_length; lia.
Qed.

(** The transpose of a two-row array pairs the rows up. *)
Lemma transpose_pair {B} (a b : list B) :
  length a = length b →
  Np.transpose [a; b] = zip_with (fun p q => [p; q]) a b.
Proof.
  unfold Np.transpose; simpl. revert b.
  induction a as [|p a IH]; intros [|q b] Hlen; simplify_eq/=; [done|].
  f_equal. by apply IH.
Qed.

(** Keeping channel [0:1] of such a transpose leaves the first row, as an
    array of shape [(n, 1)]. *)
Lemma first_channel_pair {B} (a b : list B) :
  length a = length b →
  Py.slice (Some 0) (Some 1) <$> Np.transpose [a; b] = column a.
Proof.
  intros Hlen. rewrite transpose_pair by done. revert b Hlen.
  induction a as [|p a IH]; intros [|q b] Hlen; simplify_eq/=; [done|].
  f_equal. by apply IH.
Qed.

Section SineFacts.

Variables (np_sin np_cos : Q → Q) (np_pi : Q).
Variable rng : Type.
Variable random_random : rng → Q * rng.
Implicit Types (T P : Z) (st : rng) (u : Q).

Lemma draws_length k st : length (draws rng random_random k st) = k.
Proof.
  revert st. induction k as [|k IH]; intros st; simpl; [done|].
  destruct (random_random st) as [u st']. simpl. by rewrite IH.
Qed.

Lemma sig1_length T P u : length (sig1 np_sin np_pi T P u) = Z.to_nat (T + P).
Proof. unfold sig1. by rewrite length_fmap, linspace_samples_length. Qed.

Lemma sig2_length T P u : length (sig2 np_cos np_pi T P u) = Z.to_nat (T + P).
Proof. unfold sig2. by rewrite length_fmap, linspace_samples_length. Qed.

Lemma sine_example_Ok T P st :
  0 ≤ T + P →
  sine_example np_sin np_cos np_pi rng random_random T P st
  = let '(u, st') := random_random st in Ok (sample_x np_sin np_cos np_pi T P u, sample_y np_sin np_cos np_pi T P u, st').
Proof.
  intros Hnum. unfold sine_example, Np.linspace.
  destruct (random_random st) as [u st'].
  destruct (Z.ltb_spec (T + P) 0); [lia|]. done.
Qed.

Lemma sine_example_Raise T P st :
  T + P < 0 →
  ∃ e, sine_example np_sin np_cos np_pi rng random_random T P st = Raise e.
Proof.
  intros Hnum. unfold sine_example, Np.linspace.
  destruct (random_random st) as [u st'].
  destruct (Z.ltb_spec (T + P) 0); [|lia]. by eexists.
Qed.

(** The loop appends one example per draw. *)
Lemma sine_loop_Ok T P k st (x y : array3 Q) :
  0 ≤ T + P →
  sine_loop np_sin np_cos np_pi rng random_random T P k st x y
  = Ok (x ++ (sample_x np_sin np_cos np_pi T P <$> draws rng random_random k st), y ++ (sample_y np_sin np_cos np_pi T P <$> draws rng random_random k st)).
Proof.
  intros Hnum. revert st x y.
  induction k as [|k IH]; intros st x y; simpl.
  - by rewrite !app_nil_r.
  - rewrite sine_example_Ok by done.
    destruct (random_random st) as [u st']. simpl.
    by rewrite IH, <- !app_assoc.
Qed.

(** The arrays before the split, when there is at least one example and the
    curves have a length. *)
Lemma sine_arrays_Ok T P n st :
  0 ≤ T + P → 1 ≤ n →
  sine_arrays np_sin np_cos np_pi rng random_random T P n st
  = Ok ((fun sample : list (list Q) => Py.slice (Some 0) (Some 1) <$> sample)
          <$> (sample_x np_sin np_cos np_pi T P <$> draws rng random_random (Z.to_nat n) st),
        (fun sample : list (list Q) => Py.slice (Some 0) (Some 1) <$> sample)
          <$> (sample_y np_sin np_cos np_pi T P <$> draws rng random_random (Z.to_nat n) st)).
Proof.
  intros Hnum Hn. unfold sine_arrays. rewrite sine_loop_Ok by done. simpl.
  destruct (Z.to_nat n) as [|k] eqn:Hk; [lia|]. simpl.
  destruct (random_random st) as [u st']. done.
Qed.

(** Without examples the channel selection fails. *)
Lemma sine_arrays_no_examples T P n st :
  n ≤ 0 →
  sine_arrays np_sin np_cos np_pi rng random_random T P n st
  = Raise (IndexError "too many indices for array: array is 1-dimensional, but 3 were indexed").
Proof.
  intros Hn. unfold sine_arrays. by replace (Z.to_nat n) with 0%nat by lia.
Qed.

Lemma sine_arrays_no_curve T P n st :
  T + P < 0 → 1 ≤ n →
  ∃ e, sine_arrays np_sin np_cos np_pi rng random_random T P n st = Raise e.
Proof.
  intros Hnum Hn. unfold sine_arrays.
  destruct (Z.to_nat n) as [|k] eqn:Hk; [lia|]. simpl.
  destruct (sine_example_Raise T P st Hnum) as [e ->]. by eexists.
Qed.

(** Every successful run is an instance of the closed form. *)
Lemma sine_arrays_inv T P n st (x y : array3 Q) :
  sine_arrays np_sin np_cos np_pi rng random_random T P n st = Ok (x, y) →
  1 ≤ n ∧ 0 ≤ T + P ∧
  x = (fun sample : list (list Q) => Py.slice (Some 0) (Some 1) <$> sample)
        <$> (sample_x np_sin np_cos np_pi T P <$> draws rng random_random (Z.to_nat n) st) ∧
  y = (fun sample : list (list Q) => Py.slice (Some 0) (Some 1) <$> sample)
        <$> (sample_y np_sin np_cos np_pi T P <$> draws rng random_random (Z.to_nat n) st).
Proof.
  intros Hxy. destruct (Z.lt_ge_cases n 1) as [Hn|Hn].
  { by rewrite sine_arrays_no_examples in Hxy by lia. }
  destruct (Z.lt_ge_cases (T + P) 0) as [Hnum|Hnum].
  { destruct (sine_arrays_no_curve T P n st Hnum Hn) as [e He]. by rewrite He in Hxy. }
  rewrite sine_arrays_Ok in Hxy by done. by simplify_eq.
Qed.

Lemma sine_arrays_lengths T P n st (x y : array3 Q) :
  sine_arrays np_sin np_cos np_pi rng random_random T P n st = Ok (x, y) →
  1 ≤ n ∧ Z.of_nat (length x) = n ∧ Z.of_nat (length y) = n.
Proof.
  intros (Hn & _ & -> & ->)%sine_arrays_inv.
  rewrite !length_fmap, draws_length. lia.
Qed.

(** With window lengths that are not negative, the returned input of an
    example is the first [T] values of its sine curve and the returned
    output is the rest, each as a one-channel array. *)
Lemma first_channel_sample_x T P u :
  0 ≤ T → 0 ≤ P →
  Py.slice (Some 0) (Some 1) <$> sample_x np_sin np_cos np_pi T P u
  = column (take (Z.to_nat T) (sig1 np_sin np_pi T P u)).
Proof.
  intros HT HP. unfold sample_x. rewrite !slice_prefix by done.
  apply first_channel_pair. by rewrite !length_take, sig1_length, sig2_length.
Qed.

Lemma first_channel_sample_y T P u :
  0 ≤ T → 0 ≤ P →
  Py.slice (Some 0) (Some 1) <$> sample_y np_sin np_cos np_pi T P u
  = column (drop (Z.to_nat T) (sig1 np_sin np_pi T P u)).
Proof.
  intros HT HP. unfold sample_y. rewrite !slice_suffix by done.
  apply first_channel_pair. by rewrite !length_drop, sig1_length, sig2_length.
Qed.

End SineFacts.

(** * Properties of the returned values *)

Lemma slice_Forall2 {A B} (R : A → B → Prop) start stop (x : list A) (y : list B) :
  Forall2 R x y → Forall2 R (Py.slice start stop x) (Py.slice start stop y).
Proof.
  intros Hxy. unfold Py.slice. rewrite (Forall2_length _ _ _ Hxy).
  by apply Forall2_take, Forall2_drop.
Qed.

(** What holds of the paired examples holds of the paired examples of
    every part of the split. *)
Lemma split_Forall2 {A} (R : list (list A) → list (list A) → Prop)
    n test_size (x y x' y' : array3 A) :
  Forall2 R x y →
  (x', y') ∈ parts (train_valid_split n test_size x y) →
  Forall2 R x' y'.
Proof.
  intros Hxy. unfold train_valid_split.
  destruct (Py.ltb 0 test_size); simpl;
    rewrite ?elem_of_cons, elem_of_nil; intros Hin;
    destruct_or!; simplify_eq; try done; by apply slice_Forall2.
Qed.

Lemma air_windows_follow {A} (s : list A) (T P : nat) :
  Forall2 (follows (column s) T P)
    (windows_at (column s) 0 T (length s - P - T))
    (windows_at (column s) T P (length s - P - T)).
Proof.
  apply Forall2_same_length_lookup_2; [by rewrite !windows_at_length|].
  intros i xi yi [Hi ->]%windows_at_lookup_Some [_ ->]%windows_at_lookup_Some.
  exists i. rewrite column_length, Nat.add_0_r. split; [lia|done].
Qed.

Lemma sine_samples_follow (np_sin np_cos : Q → Q) (np_pi : Q) (T P : Z) (u : Q) :
  0 ≤ T → 0 ≤ P →
  follows (column (sig1 np_sin np_pi T P u)) (Z.to_nat T) (Z.to_nat P)
    (Py.slice (Some 0) (Some 1) <$> sample_x np_sin np_cos np_pi T P u)
    (Py.slice (Some 0) (Some 1) <$> sample_y np_sin np_cos np_pi T P u).
Proof.
  intros HT HP. rewrite first_channel_sample_x, first_channel_sample_y by done.
  exists 0%nat. rewrite column_length, sig1_length, column_take, column_drop.
  split; [lia|]. split; [done|]. simpl. symmetry. apply take_ge.
  rewrite length_drop, column_length, sig1_length. lia.
Qed.

(** C1. In every pair of arrays either generator returns, input [x[i]] and
    output [y[i]] are cut from one series: [x[i]] is [train_sequence_length]
    consecutive rows of it and [y[i]] is the [predict_sequence_length] rows
    right after the last row of [x[i]]. For the air-passenger generator the
    series is the rescaled column; for the sine generator it is the sine
    curve of the example's own draw (window lengths not negative). *)
Theorem window_alignment :
  (∀ csv T P test_size d,
     get_air_passengers csv T P test_size = Ok d →
     ∃ v, air_values csv = Ok v ∧
       ∀ x y, (x, y) ∈ parts d →
         Forall2 (follows v (Z.to_nat T) (Z.to_nat P)) x y) ∧
  (∀ np_sin np_cos np_pi rng random_random T P test_size n_examples st d,
     0 ≤ T → 0 ≤ P →
     get_sine np_sin np_cos np_pi rng random_random T P test_size n_examples st = Ok d →
     ∀ x y, (x, y) ∈ parts d →
       Forall2 (fun xi yi =>
                  ∃ u, u ∈ draws rng random_random (Z.to_nat n_examples) st ∧
                       follows (column (sig1 np_sin np_pi T P u))
                               (Z.to_nat T) (Z.to_nat P) xi yi) x y).
Proof.
  split.
  - intros csv T P test_size d Hd. unfold get_air_passengers in Hd.
    destruct (air_arrays csv T P) as [[x0 y0]|e] eqn:Harr; simplify_eq/=.
    apply air_arrays_Ok in Harr as (s & Hv & _ & _ & _ & -> & ->).
    exists (column s). split; [done|]. intros x y Hin.
    eapply split_Forall2; [|done]. apply air_windows_follow.
  - intros np_sin np_cos np_pi rng random_random T P test_size n st d HT HP Hd.
    unfold get_sine in Hd.
    destruct (sine_arrays np_sin np_cos np_pi rng random_random T P n st)
      as [[x0 y0]|e] eqn:Harr; simplify_eq/=.
    apply sine_arrays_inv in Harr as (_ & _ & -> & ->).
    intros x y Hin. eapply split_Forall2; [|done].
    apply Forall2_fmap, Forall2_fmap, Forall_Forall2_diag, Forall_forall.
    intros u Hu. exists u. split; [done|]. by apply sine_samples_follow.
Qed.

(** An instance: the default window lengths 24 and 8 on a 150-row column,
    and five sine examples with windows of lengths 4 and 2. *)
Lemma window_alignment_witness :
  ∃ d_air d_sine,
    get_air_passengers ramp 24 8 (1 # 4) = Ok d_air ∧
    (∃ v, air_values ramp = Ok v ∧
       ∀ x y, (x, y) ∈ parts d_air → Forall2 (follows v 24 8) x y) ∧
    get_sine sin3 cos2 pi_approx nat lcg 4 2 (1 # 4) 5 1%nat = Ok d_sine ∧
    (∀ x y, (x, y) ∈ parts d_sine →
       Forall2 (fun xi yi =>
                  ∃ u, u ∈ draws nat lcg 5 1%nat ∧
                       follows (column (sig1 sin3 pi_approx 4 2 u)) 4 2 xi yi) x y).
Proof.
  do 2 eexists. split; [vm_compute; reflexivity|].
  split; [apply (proj1 window_alignment ramp 24 8 (1 # 4)); vm_compute; reflexivity|].
  split; [vm_compute; reflexivity|].
  apply (proj2 window_alignment sin3 cos2 pi_approx nat lcg 4 2 (1 # 4) 5 1%nat);
    [lia | lia | vm_compute; reflexivity].
Defined.

(** The arrays before the split, for a column of at least 144 rows. *)
Lemma air_arrays_eq csv T P :
  (144 ≤ length csv)%nat → 1 ≤ T → 1 ≤ P →
  ∃ s, length s = 144%nat ∧ air_values csv = Ok (column s) ∧
    air_arrays csv T P
    = Ok (windows_at (column s) 0 (Z.to_nat T) (144 - Z.to_nat P - Z.to_nat T),
          windows_at (column s) (Z.to_nat T) (Z.to_nat P)
                     (144 - Z.to_nat P - Z.to_nat T)).
Proof.
  intros Hlen HT HP.
  assert (length (take 144 csv) = 144%nat) as Hdf by (rewrite length_take; lia).
  destruct (air_values_eq csv) as (hi & lo & _ & _ & Hv).
  { intros Hnil. by rewrite Hnil in Hdf. }
  exists (scale hi lo <$> take 144 csv).
  assert (length (scale hi lo <$> take 144 csv) = 144%nat) as Hs
    by (by rewrite length_fmap).
  split; [done|]. split; [done|].
  unfold air_arrays. rewrite Hv. simpl. by rewrite air_windows_eq, Hs.
Qed.

(** C10. With window lengths of at least 1 that together do not exceed 144,
    and no split, the air-passenger generator returns
    [144 - train_sequence_length - predict_sequence_length] examples in [x]
    and as many in [y]. *)
Theorem air_example_count csv T P :
  (144 ≤ length csv)%nat → 1 ≤ T → 1 ≤ P → T + P ≤ 144 →
  ∃ x y, get_air_passengers csv T P 0 = Ok (Full x y) ∧
    Z.of_nat (length x) = 144 - T - P ∧ Z.of_nat (length y) = 144 - T - P.
Proof.
  intros Hlen HT HP HTP.
  destruct (air_arrays_eq csv T P Hlen HT HP) as (s & _ & _ & Harr).
  unfold get_air_passengers. rewrite Harr. simpl.
  do 2 eexists. split; [done|]. rewrite !windows_at_length. lia.
Qed.

(** An instance: the default window lengths give 112 examples. *)
Lemma air_example_count_witness :
  ∃ x y, get_air_passengers ramp 24 8 0 = Ok (Full x y) ∧
    Z.of_nat (length x) = 144 - 24 - 8 ∧ Z.of_nat (length y) = 144 - 24 - 8.
Proof.
  apply (air_example_count ramp 24 8); [vm_compute; lia | lia | lia | lia].
Defined.

(** ** Which rows the trim removes *)

Lemma kept_eq n T P :
  0 ≤ T → 0 < P →
  kept n T P = seq (Z.to_nat T) (n - Z.to_nat P - Z.to_nat T).
Proof.
  intros HT HP. unfold kept.
  rewrite slice_trim, length_seq, drop_seq, take_seq by done. simpl. f_equal. lia.
Qed.

Lemma removed_iff n T P r :
  0 ≤ T → 0 < P →
  removed n T P r = true ↔ ¬ (Z.to_nat T ≤ r < n - Z.to_nat P)%nat.
Proof.
  intros HT HP. unfold removed. rewrite bool_decide_eq_true, kept_eq by done.
  rewrite elem_of_seq. split; intros Hr ?; apply Hr; lia.
Qed.

Lemma consecutive_seq p len : consecutive (column (seq p len)) = true.
Proof.
  destruct len as [|len]; [done|]. unfold consecutive. simpl.
  apply bool_decide_eq_true. unfold column. by rewrite length_fmap, length_seq.
Qed.

Lemma positions_lookup n j : (j < n)%nat → positions n !! j = Some [j].
Proof.
  intros Hj. unfold positions, column. by rewrite list_lookup_fmap, lookup_seq_lt.
Qed.

Lemma positions_length n : length (positions n) = n.
Proof. unfold positions. by rewrite column_length, length_seq. Qed.

(** On the row numbers, entry [k] of the window of row [r] is the row number
    [(r - T + k) mod n]. *)
Lemma source_window_eq n T P r :
  1 ≤ T → 1 ≤ P → (r < n)%nat →
  source_window n T P r
  = Some ((fun k : nat => [Z.to_nat ((Z.of_nat r - T + Z.of_nat k) mod Z.of_nat n)])
            <$> seq 0 (Z.to_nat (T + P))).
Proof.
  intros HT HP Hr. unfold source_window, air_x_stacked, air_y_stacked.
  assert (∀ z, (Z.to_nat (z mod Z.of_nat n) < n)%nat) as Hmod.
  { intros z. pose proof (Z.mod_pos_bound z (Z.of_nat n)). lia. }
  destruct (stack_axis1_rows
              ((fun seq => Np.roll seq (positions n)) <$> Py.range 1 (T + 1)) n)
    as (xs & -> & _ & Hxs).
  { intros Hnil. apply (f_equal length) in Hnil.
    rewrite length_fmap, range_length in Hnil. simpl in Hnil. lia. }
  { apply Forall_fmap, Forall_forall. intros seq _. simpl.
    by rewrite roll_length, positions_length. }
  destruct (stack_axis1_rows
              ((fun seq => Np.roll_flat (- seq) (positions n)) <$> Py.range 0 P) n)
    as (ys & Hys & _ & Hyrows).
  { intros Hnil. apply (f_equal length) in Hnil.
    rewrite length_fmap, range_length in Hnil. simpl in Hnil. lia. }
  { apply Forall_fmap, Forall_forall. intros seq _. simpl. unfold positions.
    by rewrite roll_flat_column, roll_length, column_length, length_seq. }
  rewrite Hys.
  rewrite (Hxs r ((fun seq : Z => [Z.to_nat ((Z.of_nat r - seq) mod Z.of_nat n)])
                    <$> Py.range 1 (T + 1))).
  2:{ apply Forall2_fmap, Forall_Forall2_diag, Forall_forall. intros seq _.
      rewrite roll_lookup, positions_length by (by rewrite positions_length).
      by apply positions_lookup. }
  rewrite (Hyrows r ((fun seq : Z => [Z.to_nat ((Z.of_nat r + seq) mod Z.of_nat n)])
                       <$> Py.range 0 P)).
  2:{ apply Forall2_fmap, Forall_Forall2_diag, Forall_forall. intros seq _.
      unfold positions at 1. rewrite roll_flat_column. fold (positions n).
      rewrite roll_lookup, positions_length by (by rewrite positions_length).
      rewrite positions_lookup by done. do 4 f_equal. lia. }
  f_equal. apply list_eq. intros i.
  rewrite list_lookup_fmap.
  destruct (decide (i < Z.to_nat T)%nat) as [Hi|Hi].
  - rewrite lookup_app_l by (rewrite length_reverse, length_fmap, range_length; lia).
    rewrite reverse_lookup by (rewrite length_fmap, range_length; lia).
    rewrite length_fmap, range_length, list_lookup_fmap, range_lookup by lia.
    rewrite lookup_seq_lt by lia. simpl. do 4 f_equal. lia.
  - rewrite lookup_app_r by (rewrite length_reverse, length_fmap, range_length; lia).
    rewrite length_reverse, length_fmap, range_length, list_lookup_fmap.
    destruct (decide (i < Z.to_nat (T + P))%nat) as [Hi'|Hi'].
    + rewrite range_lookup, lookup_seq_lt by lia. simpl. do 4 f_equal. lia.
    + rewrite (proj2 (lookup_ge_None (seq 0 (Z.to_nat (T + P))) i))
        by (rewrite length_seq; lia).
      rewrite (proj2 (lookup_ge_None (Py.range 0 P) _)) by (rewrite range_length; lia).
      done.
Qed.

(** A window of row numbers [(a + k) mod n] is consecutive exactly when it
    ends before the boundary. *)
Lemma consecutive_mod (n len : nat) (a : Z) :
  (1 ≤ len ≤ n)%nat →
  consecutive ((fun k : nat => [Z.to_nat ((a + Z.of_nat k) mod Z.of_nat n)]) <$> seq 0 len)
  = bool_decide (a mod Z.of_nat n + Z.of_nat len ≤ Z.of_nat n).
Proof.
  intros Hlen. pose proof (Z.mod_pos_bound a (Z.of_nat n) ltac:(lia)) as Ha.
  assert (∀ k : nat, (a + Z.of_nat k) mod Z.of_nat n
                     = (a mod Z.of_nat n + Z.of_nat k) mod Z.of_nat n) as Hk.
  { intros k. by rewrite Z.add_mod_idemp_l by lia. }
  destruct len as [|len]; [lia|].
  set (f := fun k : nat => [Z.to_nat ((a + Z.of_nat k) mod Z.of_nat n)]).
  set (p := Z.to_nat (a mod Z.of_nat n)).
  assert (f 0%nat = [p]) as Hp by (unfold f, p; simpl; by rewrite Z.add_0_r).
  assert (consecutive (f <$> seq 0 (S len))
          = bool_decide (f <$> seq 0 (S len) = column (seq p (S len)))) as ->.
  { change (seq 0 (S len)) with (0%nat :: seq 1 len). rewrite fmap_cons, Hp.
    unfold consecutive. by rewrite length_cons, length_fmap, length_seq. }
  apply bool_decide_ext. subst f p. split.
  - intros Heq.
    destruct (decide (a mod Z.of_nat n + Z.of_nat (S len) ≤ Z.of_nat n)) as [|Hover];
      [done|exfalso].
    set (k := Z.to_nat (Z.of_nat n - a mod Z.of_nat n)).
    apply (f_equal (fun l => l !! k)) in Heq. unfold column in Heq.
    rewrite !list_lookup_fmap, !lookup_seq_lt in Heq by lia. simpl in Heq.
    rewrite Hk in Heq.
    replace (a mod Z.of_nat n + Z.of_nat k) with (0 + 1 * Z.of_nat n) in Heq by lia.
    rewrite Z.mod_add, Z.mod_0_l in Heq by lia. simplify_eq. lia.
  - intros Hfit. unfold column. apply list_eq. intros i.
    rewrite !list_lookup_fmap.
    destruct (decide (i < S len)%nat) as [Hi|Hi].
    + rewrite !lookup_seq_lt by lia. simpl. do 2 f_equal.
      rewrite Hk, Z.mod_small by lia. lia.
    + by rewrite !(proj2 (lookup_ge_None _ _)) by (rewrite length_seq; lia).
Qed.

(** The rows with a wrapped value: the first [T] and the last [P - 1]. *)
Lemma wrapped_iff n T P r :
  1 ≤ T → 1 ≤ P → T + P ≤ Z.of_nat n → (r < n)%nat →
  wrapped n T P r = true ↔ (r < Z.to_nat T ∨ n < r + Z.to_nat P)%nat.
Proof.
  intros HT HP HTP Hr. unfold wrapped. rewrite source_window_eq by done.
  rewrite consecutive_mod by lia. rewrite negb_true_iff, bool_decide_eq_false.
  destruct (decide (Z.to_nat T ≤ r)%nat) as [Hge|Hlt].
  - rewrite Z.mod_small by lia. lia.
  - replace (Z.of_nat r - T) with (Z.of_nat r - T + Z.of_nat n + (-1) * Z.of_nat n) by lia.
    rewrite Z.mod_add, Z.mod_small by lia. lia.
Qed.

(** C2, the part that fails: with the default window lengths 24 and 8, row
    136 of the stacked arrays holds no wrapped value (it pairs rows 112..135
    with rows 136..143) and the trim removes it all the same. *)
Lemma trim_not_exact : ¬ trim_exact 144 24 8.
Proof.
  intros Hexact. specialize (Hexact 136%nat ltac:(lia)).
  vm_compute in Hexact. discriminate.
Qed.

(** The rows a slice keeps are the rows whose numbers the same slice keeps
    of [0 .. n-1]. *)
Lemma slice_rows {A} start stop (l : list A) :
  Forall2 (fun r e => l !! r = Some e)
    (Py.slice start stop (seq 0 (length l))) (Py.slice start stop l).
Proof.
  unfold Py.slice. rewrite length_seq. apply Forall2_take, Forall2_drop.
  apply Forall2_same_length_lookup_2; [by rewrite length_seq|].
  intros i r e Hr He. by apply lookup_seq in Hr as [-> _].
Qed.

(** C2, amended. For window lengths of at least 1 that together do not
    exceed 144, the air-passenger generator returns arrays [x] and [y] of
    one length; every input window is [train_sequence_length] consecutive
    rows of the 144-row series, so none holds a wrapped value. The arrays
    it builds are, in order, the rows of the stacked rolls that the trim
    keeps, and the rows the trim removes are exactly the rows with a
    wrapped value and the row [144 - predict_sequence_length], which has
    none. *)
Theorem air_trim csv T P test_size :
  (144 ≤ length csv)%nat → 1 ≤ T → 1 ≤ P → T + P ≤ 144 →
  ∃ v d xs ys x y,
    air_values csv = Ok v ∧ length v = 144%nat ∧
    get_air_passengers csv T P test_size = Ok d ∧
    (∀ x y, (x, y) ∈ parts d →
       length x = length y ∧
       ∀ xi, xi ∈ x →
         ∃ s : nat, (s + Z.to_nat T ≤ 144)%nat ∧ xi = take (Z.to_nat T) (drop s v)) ∧
    air_x_stacked v T = Ok xs ∧ air_y_stacked v P = Ok ys ∧
    length xs = 144%nat ∧ length ys = 144%nat ∧
    air_arrays csv T P = Ok (x, y) ∧ examples d = (x, y) ∧
    Forall2 (fun r xi => xs !! r = Some (reverse xi)) (kept 144 T P) x ∧
    Forall2 (fun r yi => ys !! r = Some yi) (kept 144 T P) y ∧
    (∀ r, (r < 144)%nat →
       removed 144 T P r = true ↔
       wrapped 144 T P r = true ∨ r = (144 - Z.to_nat P)%nat) ∧
    wrapped 144 T P (144 - Z.to_nat P) = false.
Proof.
  intros Hlen HT HP HTP.
  destruct (air_arrays_eq csv T P Hlen HT HP) as (s & Hs & Hv & Harr).
  destruct (air_x_stacked_rows (column s) T HT) as (xs & Hxs & Hxlen & _).
  destruct (air_y_stacked_rows s P HP) as (ys & Hys & Hylen & _).
  rewrite column_length, Hs in Hxlen. rewrite Hs in Hylen.
  assert (air_arrays csv T P
          = Ok (reverse <$> Py.slice (Some T) (Some (- P)) xs,
                Py.slice (Some T) (Some (- P)) ys)) as Hcut.
  { unfold air_arrays, air_windows. rewrite Hv. simpl. rewrite Hxs. simpl.
    by rewrite Hys. }
  exists (column s). eexists. exists xs, ys. do 2 eexists.
  split; [done|]. split; [by rewrite column_length|].
  unfold get_air_passengers. rewrite Harr. simpl. split; [done|].
  split; [|split; [done|split; [done|split; [done|split; [done|split; [done|]]]]]].
  - intros x y Hin.
    assert (Forall2 (follows (column s) (Z.to_nat T) (Z.to_nat P)) x y) as Hxy.
    { eapply split_Forall2; [|done]. rewrite <- Hs. apply air_windows_follow. }
    split; [by eapply Forall2_length|].
    intros xi [i Hi]%list_elem_of_lookup.
    destruct (Forall2_lookup_l _ _ _ _ _ Hxy Hi) as (yi & _ & p & Hp & -> & _).
    exists p. rewrite column_length, Hs in Hp. split; [lia|done].
  - split; [apply train_valid_split_examples|].
    rewrite Harr in Hcut. injection Hcut as -> ->.
    unfold kept. rewrite <- Hxlen at 1. rewrite <- Hylen.
    split; [|split; [apply slice_rows|split]].
    + apply Forall2_fmap_r. eapply Forall2_impl; [apply slice_rows|].
      intros r e He. simpl. by rewrite reverse_involutive.
    + intros r Hr. fold (kept 144 T P). rewrite Hylen.
      fold (kept 144 T P). rewrite removed_iff, wrapped_iff by lia. lia.
    + apply not_true_is_false. rewrite wrapped_iff by lia. lia.
Qed.

(** An instance: the default window lengths and a split at 0.25. *)
Lemma air_trim_witness :
  ∃ v d xs ys x y,
    air_values ramp = Ok v ∧ length v = 144%nat ∧
    get_air_passengers ramp 24 8 (1 # 4) = Ok d ∧
    (∀ x y, (x, y) ∈ parts d →
       length x = length y ∧
       ∀ xi, xi ∈ x →
         ∃ s : nat, (s + Z.to_nat 24 ≤ 144)%nat ∧ xi = take (Z.to_nat 24) (drop s v)) ∧
    air_x_stacked v 24 = Ok xs ∧ air_y_stacked v 8 = Ok ys ∧
    length xs = 144%nat ∧ length ys = 144%nat ∧
    air_arrays ramp 24 8 = Ok (x, y) ∧ examples d = (x, y) ∧
    Forall2 (fun r xi => xs !! r = Some (reverse xi)) (kept 144 24 8) x ∧
    Forall2 (fun r yi => ys !! r = Some yi) (kept 144 24 8) y ∧
    (∀ r, (r < 144)%nat →
       removed 144 24 8 r = true ↔
       wrapped 144 24 8 r = true ∨ r = (144 - Z.to_nat 8)%nat) ∧
    wrapped 144 24 8 (144 - Z.to_nat 8) = false.
Proof.
  apply (air_trim ramp 24 8 (1 # 4)); [vm_compute; lia | lia | lia | lia].
Defined.

(** C4, the part that fails: the sine generator with its default 100
    examples and the float nearest to 0.1 as [test_size]. The code rounds
    [1 - test_size] to 0.9 and the product to 90.0, and puts 90 examples in
    the training part; the floor of the exact product is 89. *)
Lemma split_not_at_exact_floor : ¬ split_at_exact_floor.
Proof.
  intros Hexact.
  assert (∃ x y, sine_arrays sin3 cos2 pi_approx nat lcg 1 1 100 1%nat = Ok (x, y))
    as (x & y & Harr) by (vm_compute; do 2 eexists; reflexivity).
  destruct (Hexact (Float64.round (1 # 10)) ltac:(reflexivity) ltac:(discriminate)
              sin3 cos2 pi_approx nat lcg 1 1 100 1%nat x y Harr)
    as (x_train & y_train & valid & Hget & Hlen).
  vm_compute in Hget. injection Hget as <- _ _.
  vm_compute in Hlen. discriminate.
Qed.

(** The same at 10 examples and the float nearest to 0.9: the code computes
    [int(10 * (1 - 0.9)) = 0], where the floor of [10 * (1 - 9/10)] is 1. *)
Example split_of_ten_at_0_9 :
  Py.int (Float64.mul (Float64.of_int 10) (Float64.sub 1 (Float64.round (9 # 10)))) = 0 ∧
  Qfloor (10 * (1 - (9 # 10))) = 1.
Proof. split; reflexivity. Qed.

(** C4, amended. With [0 < test_size <= 1], either generator returns the
    two parts of a split of its [n] examples: the split point is
    [int(n * (1 - test_size))] as float64 arithmetic gives it, that is the
    floor of the rounded product of [n] and the rounded [1 - test_size]; the
    training arrays are the examples before it, the validation arrays are
    the examples from it on, and the two parts have [n] examples
    together. *)
Theorem split_prefix_suffix (test_size : Q) :
  (0 < test_size)%Q → (test_size <= 1)%Q →
  (∀ csv T P x y,
     air_arrays csv T P = Ok (x, y) →
     let n := Z.of_nat (length x) in
     let product := Float64.mul (Float64.of_int n) (Float64.sub 1 test_size) in
     let k := Z.to_nat (Qfloor product) in
     Py.int product = Qfloor product ∧ 0 ≤ Qfloor product ≤ n ∧
     get_air_passengers csv T P test_size
     = Ok (Split (take k x, take k y) (drop k x, drop k y)) ∧
     (length (take k x) + length (drop k x))%nat = length x ∧
     (length (take k y) + length (drop k y))%nat = length x) ∧
  (∀ np_sin np_cos np_pi rng random_random T P n st x y,
     sine_arrays np_sin np_cos np_pi rng random_random T P n st = Ok (x, y) →
     let product := Float64.mul (Float64.of_int n) (Float64.sub 1 test_size) in
     let k := Z.to_nat (Qfloor product) in
     Z.of_nat (length x) = n ∧
     Py.int product = Qfloor product ∧ 0 ≤ Qfloor product ∧
     (n < 2 ^ 53 → Qfloor product ≤ n) ∧
     get_sine np_sin np_cos np_pi rng random_random T P test_size n st
     = Ok (Split (take k x, take k y) (drop k x, drop k y)) ∧
     (length (take k x) + length (drop k x))%nat = length x ∧
     (length (take k y) + length (drop k y))%nat = length x).
Proof.
  intros H0 H1. split.
  - intros csv T P x y Harr n product k.
    pose proof (split_product_nonneg n test_size ltac:(lia) H1) as Hq.
    split; [by apply int_floor|].
    apply air_arrays_Ok in Harr as Hxy.
    destruct Hxy as (s & _ & Hs & _ & _ & Hx & Hy).
    assert (length x ≤ 144)%nat as Hshort.
    { rewrite Hx, windows_at_length, Hs, length_take. lia. }
    split.
    { apply split_point_bounds; [lia| |lra|done].
      change (2 ^ 53) with 9007199254740992. lia. }
    unfold get_air_passengers. rewrite Harr. simpl.
    rewrite train_valid_split_cut by (done || lia). split; [done|].
    rewrite <- !length_app, !take_drop. subst x y.
    by rewrite !windows_at_length.
  - intros np_sin np_cos np_pi rng random_random T P n st x y Harr product k.
    destruct (sine_arrays_lengths _ _ _ _ _ _ _ _ _ _ _ Harr) as (Hn & Hx & Hy).
    pose proof (split_product_nonneg n test_size ltac:(lia) H1) as Hq.
    split; [done|]. split; [by apply int_floor|].
    split; [change 0 with (Qfloor 0); by apply Qfloor_resp_le|].
    split; [intros Hbig; apply split_point_bounds; (lia || lra || done)|].
    unfold get_sine. rewrite Harr. simpl.
    rewrite train_valid_split_cut by (done || lia). split; [done|].
    rewrite <- !length_app, !take_drop. lia.
Qed.

(** C5. With [test_size == 0], either generator returns the single pair
    [(x_array, y_array)] of all the examples it built. *)
Theorem no_split (test_size : Q) :
  (test_size == 0)%Q →
  (∀ csv T P,
     get_air_passengers csv T P test_size
     = '(x, y) ← air_arrays csv T P; Ok (Full x y)) ∧
  (∀ np_sin np_cos np_pi rng random_random T P n st,
     get_sine np_sin np_cos np_pi rng random_random T P test_size n st
     = '(x, y) ← sine_arrays np_sin np_cos np_pi rng random_random T P n st;
       Ok (Full x y)).
Proof.
  intros H0. split.
  - intros csv T P. unfold get_air_passengers.
    destruct (air_arrays csv T P) as [[x y]|e]; simpl; [|done].
    by rewrite train_valid_split_full.
  - intros np_sin np_cos np_pi rng random_random T P n st. unfold get_sine.
    destruct (sine_arrays np_sin np_cos np_pi rng random_random T P n st)
      as [[x y]|e]; simpl; [|done].
    by rewrite train_valid_split_full.
Qed.

(** An instance: [test_size = 0.25] cuts 112 air-passenger examples at 84
    and 5 sine examples at 3. *)
Lemma split_prefix_suffix_witness :
  (∃ x y, air_arrays ramp 24 8 = Ok (x, y) ∧ length x = 112%nat ∧
     get_air_passengers ramp 24 8 (1 # 4)
     = Ok (Split (take 84 x, take 84 y) (drop 84 x, drop 84 y))) ∧
  (∃ x y, sine_arrays sin3 cos2 pi_approx nat lcg 4 2 5 1%nat = Ok (x, y) ∧
     get_sine sin3 cos2 pi_approx nat lcg 4 2 (1 # 4) 5 1%nat
     = Ok (Split (take 3 x, take 3 y) (drop 3 x, drop 3 y))).
Proof.
  assert (0 < 1 # 4)%Q as H0 by reflexivity.
  assert (1 # 4 <= 1)%Q as H1 by discriminate.
  split.
  - assert (∃ x y, air_arrays ramp 24 8 = Ok (x, y) ∧ length x = 112%nat)
      as (x & y & Harr & Hlen)
      by (vm_compute; do 2 eexists; split; reflexivity).
    exists x, y. split; [done|]. split; [done|].
    destruct (proj1 (split_prefix_suffix (1 # 4) H0 H1) ramp 24 8 x y Harr)
      as (_ & _ & Hget & _).
    rewrite Hlen in Hget. exact Hget.
  - assert (∃ x y, sine_arrays sin3 cos2 pi_approx nat lcg 4 2 5 1%nat = Ok (x, y))
      as (x & y & Harr)
      by (vm_compute; do 2 eexists; reflexivity).
    exists x, y. split; [done|].
    destruct (proj2 (split_prefix_suffix (1 # 4) H0 H1)
                sin3 cos2 pi_approx nat lcg 4 2 5 1%nat x y Harr)
      as (_ & _ & _ & _ & Hget & _).
    exact Hget.
Defined.

(** An instance: a zero [test_size] written as 0/7. *)
Lemma no_split_witness :
  get_air_passengers ramp 24 8 (0 # 7)
  = ('(x, y) ← air_arrays ramp 24 8; Ok (Full x y)) ∧
  get_sine sin3 cos2 pi_approx nat lcg 4 2 (0 # 7) 5 1%nat
  = ('(x, y) ← sine_arrays sin3 cos2 pi_approx nat lcg 4 2 5 1%nat; Ok (Full x y)).
Proof.
  assert (0 # 7 == 0)%Q as H0 by reflexivity.
  split.
  - apply (proj1 (no_split (0 # 7) H0)).
  - apply (proj2 (no_split (0 # 7) H0)).
Defined.

(** ** The rescaling *)

Lemma foldl_Qmax_init l e : (e <= foldl Qmax e l)%Q.
Proof.
  revert e. induction l as [|b l IH]; intros e; simpl; [apply Qle_refl|].
  eapply Qle_trans; [apply Q.le_max_l | apply IH].
Qed.

Lemma foldl_Qmax_le l e a : a ∈ e :: l → (a <= foldl Qmax e l)%Q.
Proof.
  revert e. induction l as [|b l IH]; intros e Ha; simpl.
  - apply list_elem_of_singleton in Ha as ->. apply Qle_refl.
  - apply elem_of_cons in Ha as [->|Ha].
    + eapply Qle_trans; [apply Q.le_max_l | apply foldl_Qmax_init].
    + apply elem_of_cons in Ha as [->|Ha].
      * eapply Qle_trans; [apply Q.le_max_r | apply foldl_Qmax_init].
      * apply IH. by right.
Qed.

Lemma foldl_Qmin_init l e : (foldl Qmin e l <= e)%Q.
Proof.
  revert e. induction l as [|b l IH]; intros e; simpl; [apply Qle_refl|].
  eapply Qle_trans; [apply IH | apply Q.le_min_l].
Qed.

Lemma foldl_Qmin_le l e a : a ∈ e :: l → (foldl Qmin e l <= a)%Q.
Proof.
  revert e. induction l as [|b l IH]; intros e Ha; simpl.
  - apply list_elem_of_singleton in Ha as ->. apply Qle_refl.
  - apply elem_of_cons in Ha as [->|Ha].
    + eapply Qle_trans; [apply foldl_Qmin_init | apply Q.le_min_l].
    + apply elem_of_cons in Ha as [->|Ha].
      * eapply Qle_trans; [apply foldl_Qmin_init | apply Q.le_min_r].
      * apply IH. by right.
Qed.

Lemma max_upper_bound l hi a : Np.max l = Ok hi → a ∈ l → (a <= hi)%Q.
Proof.
  destruct l as [|e l]; intros Hhi Ha; simplify_eq/=. by apply foldl_Qmax_le.
Qed.

Lemma min_lower_bound l lo a : Np.min l = Ok lo → a ∈ l → (lo <= a)%Q.
Proof.
  destruct l as [|e l]; intros Hlo Ha; simplify_eq/=. by apply foldl_Qmin_le.
Qed.

(** What line 102 computes on a series that is not constant: every value
    [a] becomes [(a - max) / (max - min)], which lies between -1 and 0; the
    minimum becomes -1 and the maximum becomes 0. *)
Lemma scale_range csv hi lo :
  Np.max (take 144 csv) = Ok hi → Np.min (take 144 csv) = Ok lo → (lo < hi)%Q →
  air_values csv
  = Ok (column ((fun a => Num ((a - hi) / (hi - lo))) <$> take 144 csv)) ∧
  (∀ a, a ∈ take 144 csv → (-1 <= (a - hi) / (hi - lo) <= 0)%Q) ∧
  ((lo - hi) / (hi - lo) == -1)%Q ∧ ((hi - hi) / (hi - lo) == 0)%Q.
Proof.
  intros Hhi Hlo Hlt. split; [|split; [|split]].
  - unfold air_values. rewrite (concat_column (take 144 csv)), Hhi, Hlo. simpl.
    unfold column. rewrite <- !list_fmap_compose. apply (f_equal Ok).
    apply list_fmap_ext. intros i a _. simpl. unfold scale.
    destruct (Qeq_bool (hi - lo) 0) eqn:Heq; [|done].
    apply Qeq_bool_iff in Heq. lra.
  - intros a Ha.
    pose proof (max_upper_bound _ _ _ Hhi Ha).
    pose proof (min_lower_bound _ _ _ Hlo Ha). split.
    + apply Qle_shift_div_l; lra.
    + apply Qle_shift_div_r; lra.
  - field. lra.
  - field. lra.
Qed.

(** C3. On the rows of 1949 the rescaling sends the minimum 104 (row 10) to
    -44/44 = -1 and the maximum 148 (row 6) to 0, where min-max
    normalization gives 0 and 1: line 102 subtracts the maximum, not the
    minimum. *)
Theorem scale_subtracts_maximum :
  ∃ v, air_values first_year = Ok v ∧
    v !! 10%nat = Some [Num (-44 # 44)] ∧ v !! 6%nat = Some [Num (0 # 44)] ∧
    v !! 0%nat = Some [Num (-36 # 44)].
Proof. eexists. split; [vm_compute; reflexivity|]. done. Qed.

(** ** The sine generator's arrays *)

Lemma column_entries {A} (s : list A) : Forall (fun e => length e = 1%nat) (column s).
Proof. unfold column. apply Forall_fmap, Forall_forall. done. Qed.

(** The arrays before the split, for window lengths that are not negative
    and at least one example: one example per draw, holding the sine curve
    only. *)
Lemma sine_arrays_eq np_sin np_cos np_pi rng random_random (T P n : Z) (st : rng) :
  0 ≤ T → 0 ≤ P → 1 ≤ n →
  sine_arrays np_sin np_cos np_pi rng random_random T P n st
  = Ok ((fun u => column (take (Z.to_nat T) (sig1 np_sin np_pi T P u)))
          <$> draws rng random_random (Z.to_nat n) st,
        (fun u => column (drop (Z.to_nat T) (sig1 np_sin np_pi T P u)))
          <$> draws rng random_random (Z.to_nat n) st).
Proof.
  intros HT HP Hn. rewrite sine_arrays_Ok by lia.
  rewrite <- !list_fmap_compose. do 2 f_equal; apply list_fmap_ext; intros i u _; simpl.
  - by apply first_channel_sample_x.
  - by apply first_channel_sample_y.
Qed.

(** C8. With [n_examples = 0] the sine generator raises [IndexError],
    whatever the other arguments: the list of examples is empty, the array
    made of it has one dimension, and it is indexed with three. *)
Theorem sine_no_examples np_sin np_cos np_pi rng random_random
    (T P : Z) (test_size : Q) (st : rng) :
  get_sine np_sin np_cos np_pi rng random_random T P test_size 0 st
  = Raise (IndexError "too many indices for array: array is 1-dimensional, but 3 were indexed").
Proof. unfold get_sine. by rewrite sine_arrays_no_examples. Qed.

(** C7. With [n_examples = 5], no split and window lengths that are not
    negative, the sine generator returns [x] of shape
    [(5, train_sequence_length, 1)] and [y] of shape
    [(5, predict_sequence_length, 1)]. *)
Theorem sine_shapes np_sin np_cos np_pi rng random_random (T P : Z) (st : rng) :
  0 ≤ T → 0 ≤ P →
  ∃ x y,
    get_sine np_sin np_cos np_pi rng random_random T P 0 5 st = Ok (Full x y) ∧
    shape3 x 5 (Z.to_nat T) 1 ∧ shape3 y 5 (Z.to_nat P) 1.
Proof.
  intros HT HP. unfold get_sine. rewrite sine_arrays_eq by lia.
  do 2 eexists. split; [done|].
  split; (split; [by rewrite length_fmap, draws_length|]);
    apply Forall_fmap, Forall_forall; intros u _; simpl;
    (split; [|apply column_entries]); rewrite column_length.
  - rewrite length_take, sig1_length. lia.
  - rewrite length_drop, sig1_length. lia.
Qed.

(** An instance: the default window lengths 24 and 8. *)
Lemma sine_shapes_witness :
  ∃ x y,
    get_sine sin3 cos2 pi_approx nat lcg 24 8 0 5 1%nat = Ok (Full x y) ∧
    shape3 x 5 (Z.to_nat 24) 1 ∧ shape3 y 5 (Z.to_nat 8) 1.
Proof. apply (sine_shapes sin3 cos2 pi_approx nat lcg 24 8 1%nat); lia. Defined.

(** C6, the part that fails: one example with windows of lengths 2 and 1
    and no split; the entries of the returned [x] hold one value, not two. *)
Lemma inputs_lose_cosine_channel : ¬ inputs_keep_two_channels.
Proof.
  intros Hkeep.
  pose proof (Hkeep sin3 cos2 pi_approx nat lcg 2 1 0%Q 1 1%nat) as Hrun.
  vm_compute in Hrun. specialize (Hrun _ eq_refl _ _ ltac:(left)).
  apply Forall_cons in Hrun as [Hsample _].
  apply Forall_cons in Hsample as [Hentry _]. discriminate.
Qed.

(** C6, amended. For window lengths that are not negative and at least one
    example, the loop builds [n_examples] two-channel samples, one per draw
    of the random phase: the sine and the cosine of one phase-shifted ramp,
    paired value by value and cut into an input and an output window. Both
    returned arrays, [x] as well as [y], keep the first (sine) channel
    only. *)
Theorem sine_channels np_sin np_cos np_pi rng random_random (T P n : Z) (st : rng) :
  0 ≤ T → 0 ≤ P → 1 ≤ n →
  let us := draws rng random_random (Z.to_nat n) st in
  let s1 := sig1 np_sin np_pi T P in
  let s2 := sig2 np_cos np_pi T P in
  length us = Z.to_nat n ∧
  sine_loop np_sin np_cos np_pi rng random_random T P (Z.to_nat n) st [] []
  = Ok ((fun u => zip_with (fun a b => [a; b])
                    (take (Z.to_nat T) (s1 u)) (take (Z.to_nat T) (s2 u))) <$> us,
        (fun u => zip_with (fun a b => [a; b])
                    (drop (Z.to_nat T) (s1 u)) (drop (Z.to_nat T) (s2 u))) <$> us) ∧
  sine_arrays np_sin np_cos np_pi rng random_random T P n st
  = Ok ((fun u => column (take (Z.to_nat T) (s1 u))) <$> us,
        (fun u => column (drop (Z.to_nat T) (s1 u))) <$> us).
Proof.
  intros HT HP Hn us s1 s2. subst us s1 s2. split; [apply draws_length|].
  split; [|by apply sine_arrays_eq].
  rewrite sine_loop_Ok by lia. simpl.
  do 2 f_equal; apply list_fmap_ext; intros i u _.
  - unfold sample_x. rewrite !slice_prefix by done. apply transpose_pair.
    by rewrite !length_take, sig1_length, sig2_length.
  - unfold sample_y. rewrite !slice_suffix by done. apply transpose_pair.
    by rewrite !length_drop, sig1_length, sig2_length.
Qed.

(** An instance: three examples with windows of lengths 4 and 2. *)
Lemma sine_channels_witness :
  let us := draws nat lcg (Z.to_nat 3) 1%nat in
  let s1 := sig1 sin3 pi_approx 4 2 in
  let s2 := sig2 cos2 pi_approx 4 2 in
  length us = Z.to_nat 3 ∧
  sine_loop sin3 cos2 pi_approx nat lcg 4 2 (Z.to_nat 3) 1%nat [] []
  = Ok ((fun u => zip_with (fun a b => [a; b])
                    (take (Z.to_nat 4) (s1 u)) (take (Z.to_nat 4) (s2 u))) <$> us,
        (fun u => zip_with (fun a b => [a; b])
                    (drop (Z.to_nat 4) (s1 u)) (drop (Z.to_nat 4) (s2 u))) <$> us) ∧
  sine_arrays sin3 cos2 pi_approx nat lcg 4 2 3 1%nat
  = Ok ((fun u => column (take (Z.to_nat 4) (s1 u))) <$> us,
        (fun u => column (drop (Z.to_nat 4) (s1 u))) <$> us).
Proof. apply (sine_channels sin3 cos2 pi_approx nat lcg 4 2 3 1%nat); lia. Defined.

(** ** The stock fetcher *)

Lemma append_empty_r (s : string) : (s ++ "")%string = s.
Proof. induction s as [|c s IH]; simpl; congruence. Qed.

(** C9. Over the outcome of the provider call: an empty frame makes the
    fetcher raise an error whose message is the empty-result message, which
    names the ticker, behind the data-retrieval prefix; an exception of the
    provider is raised again as a [ValueError] whose message is the
    data-retrieval prefix and the text of the original exception; a frame
    that is not empty is returned as it is. *)
Theorem stock_fetch (ticker : string) :
  (∀ data, Stock.empty data = true →
     Stock.get_stock_data ticker (Stock.Returns data)
     = Raise (ValueError ("Error retrieving stock data: "
                          ++ "No data available for ticker: " ++ ticker)) ∧
     contains ticker ("Error retrieving stock data: "
                      ++ "No data available for ticker: " ++ ticker)) ∧
  (∀ e, Stock.get_stock_data ticker (Stock.Raises e)
        = Raise (ValueError ("Error retrieving stock data: " ++ str e))) ∧
  (∀ data, Stock.empty data = false →
     Stock.get_stock_data ticker (Stock.Returns data) = Ok data).
Proof.
  split; [|split].
  - intros data Hempty. unfold Stock.get_stock_data. rewrite Hempty. split; [done|].
    exists ("Error retrieving stock data: No data available for ticker: ")%string,
           EmptyString.
    by rewrite append_empty_r.
  - done.
  - intros data Hempty. unfold Stock.get_stock_data. by rewrite Hempty.
Qed.

(** An instance: a frame without rows and a frame with one row, for the
    ticker NVDA. *)
Lemma stock_fetch_witness :
  Stock.get_stock_data "NVDA"
    (Stock.Returns {| Stock.index := []; Stock.columns := ["Close"%string];
                      Stock.values := [] |})
  = Raise (ValueError "Error retrieving stock data: No data available for ticker: NVDA") ∧
  Stock.get_stock_data "NVDA"
    (Stock.Returns {| Stock.index := ["2023-09-01"%string];
                      Stock.columns := ["Close"%string];
                      Stock.values := [[485%Q]] |})
  = Ok {| Stock.index := ["2023-09-01"%string]; Stock.columns := ["Close"%string];
          Stock.values := [[485%Q]] |}.
Proof.
  split.
  - apply (proj1 (stock_fetch "NVDA")). reflexivity.
  - apply (proj2 (proj2 (stock_fetch "NVDA"))). reflexivity.
Defined.

(** * Further properties of the generators *)

(** ** The split never loses an example *)


(** ** When the generators fail *)

Lemma sine_arrays_no_curve_error np_sin np_cos np_pi rng random_random
    (T P n : Z) (st : rng) :
  T + P < 0 → 1 ≤ n →
  sine_arrays np_sin np_cos np_pi rng random_random T P n st
  = Raise (ValueError ("Number of samples, " ++ Py.str_int (T + P)
                       ++ ", must be non-negative.")).
Proof.
  intros Hnum Hn. unfold sine_arrays.
  destruct (Z.to_nat n) as [|k] eqn:Hk; [lia|]. simpl.
  unfold sine_example, Np.linspace. destruct (random_random st) as [u st'].
  destruct (Z.ltb_spec (T + P) 0); [done|lia].
Qed.






(** ** The examples of the sine generator, one by one *)

Lemma slice_Forall {A} (R : A → Prop) start stop (l : list A) :
  Forall R l → Forall R (Py.slice start stop l).
Proof. intros Hl. unfold Py.slice. by apply Forall_take, Forall_drop. Qed.

(** What holds of all inputs and of all outputs holds of those of every
    part of the split. *)
Lemma split_Forall {A} (R R' : list (list A) → Prop)
    n test_size (x y x' y' : array3 A) :
  Forall R x → Forall R' y →
  (x', y') ∈ parts (train_valid_split n test_size x y) →
  Forall R x' ∧ Forall R' y'.
Proof.
  intros Hx Hy. unfold train_valid_split.
  destruct (Py.ltb 0 test_size); simpl;
    rewrite ?elem_of_cons, elem_of_nil; intros Hin;
    destruct_or!; simplify_eq; try done; split; by apply slice_Forall.
Qed.

(** X4. Whatever the number of examples and [test_size] are, in every pair
    of arrays the sine generator returns the inputs and the outputs are
    equally many, every input has [train_sequence_length] rows of one
    value, and every output has [predict_sequence_length] rows of one value
    (window lengths not negative). *)
Theorem sine_part_shapes np_sin np_cos np_pi rng random_random
    (T P : Z) (test_size : Q) (n : Z) (st : rng) d :
  0 ≤ T → 0 ≤ P →
  get_sine np_sin np_cos np_pi rng random_random T P test_size n st = Ok d →
  ∀ x y, (x, y) ∈ parts d →
    length x = length y ∧
    Forall (fun w => length w = Z.to_nat T ∧ Forall (fun e => length e = 1%nat) w) x ∧
    Forall (fun w => length w = Z.to_nat P ∧ Forall (fun e => length e = 1%nat) w) y.
Proof.
  intros HT HP Hd x y Hin. unfold get_sine in Hd.
  destruct (sine_arrays np_sin np_cos np_pi rng random_random T P n st)
    as [[x0 y0]|e] eqn:Harr; simplify_eq/=.
  pose proof Harr as (Hn & _)%sine_arrays_lengths.
  rewrite sine_arrays_eq in Harr by done. simplify_eq. split.
  { apply (Forall2_same_length x y). eapply split_Forall2; [|done].
    apply Forall2_same_length. by rewrite !length_fmap. }
  eapply split_Forall; [| |done];
    apply Forall_fmap, Forall_forall; intros u _; simpl;
    (split; [rewrite column_length|apply column_entries]).
  - rewrite length_take, sig1_length. lia.
  - rewrite length_drop, sig1_length. lia.
Qed.

(** An instance: five examples, windows of lengths 4 and 2, a split at
    0.25. *)
Lemma sine_part_shapes_witness :
  ∃ d, get_sine sin3 cos2 pi_approx nat lcg 4 2 (1 # 4) 5 1%nat = Ok d ∧
    ∀ x y, (x, y) ∈ parts d →
      length x = length y ∧
      Forall (fun w => length w = Z.to_nat 4 ∧ Forall (fun e => length e = 1%nat) w) x ∧
      Forall (fun w => length w = Z.to_nat 2 ∧ Forall (fun e => length e = 1%nat) w) y.
Proof.
  eexists. split; [vm_compute; reflexivity|].
  apply (sine_part_shapes sin3 cos2 pi_approx nat lcg 4 2 (1 # 4) 5 1%nat);
    [lia | lia | vm_compute; reflexivity].
Defined.

Lemma linspace_samples_last (start stop : Q) (num : Z) :
  1 < num → last (Np.linspace_samples start stop num) = Some stop.
Proof.
  intros Hnum. rewrite last_lookup, linspace_samples_length.
  pose proof (linspace_samples_length start stop num) as Hlen.
  unfold Np.linspace_samples in *. destruct (Z.ltb_spec 1 num); [|lia].
  replace (Init.Nat.pred (Z.to_nat num)) with (Z.to_nat (num - 1)) by lia.
  rewrite length_insert in Hlen.
  apply list_lookup_insert_eq. rewrite Hlen. lia.
Qed.

(** X5. Example [i] of the sine generator is built from draw [i] of the
    random generator: its input followed by its output is the whole sine
    curve of that draw, [train + predict] samples, and when there is an
    output window and more than one sample the last output value is the
    sine at the end point [3 * pi + rand] itself. *)
Theorem sine_examples_by_draw np_sin np_cos np_pi rng random_random
    (T P n : Z) (st : rng) :
  0 ≤ T → 0 ≤ P → 1 ≤ n →
  ∃ x y,
    sine_arrays np_sin np_cos np_pi rng random_random T P n st = Ok (x, y) ∧
    ∀ i u, draws rng random_random (Z.to_nat n) st !! i = Some u →
      ∃ xi yi, x !! i = Some xi ∧ y !! i = Some yi ∧
        xi ++ yi = column (sig1 np_sin np_pi T P u) ∧
        length (xi ++ yi) = Z.to_nat (T + P) ∧
        (1 ≤ P → 2 ≤ T + P →
         last yi = Some [np_sin (3 * np_pi + phase np_pi u)%Q]).
Proof.
  intros HT HP Hn. rewrite sine_arrays_eq by done. do 2 eexists. split; [done|].
  intros i u Hu. do 2 eexists. rewrite !list_lookup_fmap, Hu. simpl.
  split; [done|]. split; [done|].
  assert (column (take (Z.to_nat T) (sig1 np_sin np_pi T P u))
          ++ column (drop (Z.to_nat T) (sig1 np_sin np_pi T P u))
          = column (sig1 np_sin np_pi T P u)) as ->.
  { unfold column. by rewrite <- fmap_app, take_drop. }
  split; [done|]. split; [by rewrite column_length, sig1_length|].
  intros HP1 HTP. unfold column. rewrite fmap_last, last_lookup, length_drop, lookup_drop.
  rewrite sig1_length.
  replace (Z.to_nat T + Init.Nat.pred (Z.to_nat (T + P) - Z.to_nat T))%nat
    with (Init.Nat.pred (Z.to_nat (T + P))) by lia.
  rewrite <- (sig1_length np_sin np_pi T P u), <- last_lookup.
  unfold sig1. by rewrite fmap_last, linspace_samples_last by lia.
Qed.

(** An instance: three examples with windows of lengths 4 and 2. *)
Lemma sine_examples_by_draw_witness :
  ∃ x y,
    sine_arrays sin3 cos2 pi_approx nat lcg 4 2 3 1%nat = Ok (x, y) ∧
    ∀ i u, draws nat lcg (Z.to_nat 3) 1%nat !! i = Some u →
      ∃ xi yi, x !! i = Some xi ∧ y !! i = Some yi ∧
        xi ++ yi = column (sig1 sin3 pi_approx 4 2 u) ∧
        length (xi ++ yi) = Z.to_nat (4 + 2) ∧
        (1 ≤ 2 → 2 ≤ 4 + 2 →
         last yi = Some [sin3 (3 * pi_approx + phase pi_approx u)%Q]).
Proof. apply (sine_examples_by_draw sin3 cos2 pi_approx nat lcg 4 2 3 1%nat); lia. Defined.

(** ** The windows of the air-passenger generator, one after the other *)

(** The two arrays of a part of the split are the same rows of the two
    arrays that were split. *)
Lemma split_parts_slices {A} n test_size (x y x' y' : array3 A) :
  length x = length y →
  (x', y') ∈ parts (train_valid_split n test_size x y) →
  ∃ j m : nat, x' = take m (drop j x) ∧ y' = take m (drop j y).
Proof.
  intros Hlen. unfold train_valid_split.
  destruct (Py.ltb 0 test_size); simpl;
    rewrite ?elem_of_cons, elem_of_nil; intros Hin;
    destruct_or!; simplify_eq; try done.
  - unfold Py.slice. rewrite Hlen. by do 2 eexists.
  - unfold Py.slice. rewrite Hlen. by do 2 eexists.
  - exists 0%nat, (length x). rewrite !drop_0, !take_ge by lia. done.
Qed.

(** Moving a window one row on: the oldest row leaves and the row after
    the window enters. *)
Lemma window_slide {A} (v : list A) (p T P : nat) :
  (1 ≤ T)%nat → (1 ≤ P)%nat → (p + 1 + T + P ≤ length v)%nat →
  take T (drop (S p) v)
  = drop 1 (take T (drop p v)) ++ take 1 (take P (drop (p + T) v)) ∧
  drop 1 (take P (drop (p + T) v)) = take (P - 1) (take P (drop (S p + T) v)).
Proof.
  intros HT HP Hlen. split; apply list_eq; intros k.
  - destruct (decide (k < T - 1)%nat) as [Hk|Hk].
    + rewrite lookup_app_l by (rewrite length_drop, length_take, length_drop; lia).
      rewrite lookup_drop, !lookup_take_lt, !lookup_drop by lia. f_equal. lia.
    + rewrite lookup_app_r by (rewrite length_drop, length_take, length_drop; lia).
      rewrite length_drop, length_take, length_drop.
      replace (T `min` (length v - p) - 1)%nat with (T - 1)%nat by lia.
      destruct (decide (k = T - 1)%nat) as [->|Hk'].
      * rewrite !lookup_take_lt, !lookup_drop by lia. f_equal. lia.
      * by rewrite !lookup_take_ge by lia.
  - rewrite lookup_drop. destruct (decide (k < P - 1)%nat) as [Hk|Hk].
    + rewrite !lookup_take_lt, !lookup_drop by lia. f_equal. lia.
    + by rewrite !lookup_take_ge by lia.
Qed.

(** X6. The air-passenger windows advance by one row per example: in every
    pair of arrays returned, the input of example [i + 1] is the input of
    example [i] without its first row, followed by the first row of the
    output of example [i]; and the output of example [i] without its first
    row is the output of example [i + 1] without its last row. *)
Theorem air_windows_slide csv (T P : Z) (test_size : Q) d :
  get_air_passengers csv T P test_size = Ok d →
  ∀ x y, (x, y) ∈ parts d →
    ∀ i xi yi xi' yi',
      x !! i = Some xi → y !! i = Some yi →
      x !! S i = Some xi' → y !! S i = Some yi' →
      xi' = drop 1 xi ++ take 1 yi ∧
      drop 1 yi = take (Z.to_nat P - 1) yi'.
Proof.
  intros Hd x y Hin i xi yi xi' yi' Hxi Hyi Hxi' Hyi'.
  unfold get_air_passengers in Hd.
  destruct (air_arrays csv T P) as [[x0 y0]|e] eqn:Harr; simplify_eq/=.
  apply air_arrays_Ok in Harr as (s & _ & _ & HT & HP & -> & ->).
  apply split_parts_slices in Hin as (j & m & -> & ->);
    [|by rewrite !windows_at_length].
  rewrite lookup_take in Hxi, Hyi, Hxi', Hyi'. repeat case_decide; try done.
  rewrite lookup_drop in Hxi, Hyi, Hxi', Hyi'.
  apply windows_at_lookup_Some in Hxi as [Hi ->], Hyi as [_ ->],
    Hxi' as [Hi' ->], Hyi' as [_ ->].
  rewrite !Nat.add_0_r.
  replace (j + S i)%nat with (S (j + i)) by lia.
  replace (S (j + i) + Z.to_nat T)%nat with (S (j + i + Z.to_nat T)) by lia.
  destruct (window_slide (column s) (j + i) (Z.to_nat T) (Z.to_nat P)) as [H1 H2];
    [lia | lia | rewrite column_length; lia |].
  replace (S (j + i) + Z.to_nat T)%nat with (S (j + i + Z.to_nat T)) in H2 by lia.
  done.
Qed.

(** An instance: the default window lengths and a split at 0.25. *)
Lemma air_windows_slide_witness :
  ∃ d, get_air_passengers ramp 24 8 (1 # 4) = Ok d ∧
    ∀ x y, (x, y) ∈ parts d →
      ∀ i xi yi xi' yi',
        x !! i = Some xi → y !! i = Some yi →
        x !! S i = Some xi' → y !! S i = Some yi' →
        xi' = drop 1 xi ++ take 1 yi ∧
        drop 1 yi = take (Z.to_nat 8 - 1) yi'.
Proof.
  eexists. split; [vm_compute; reflexivity|].
  apply (air_windows_slide ramp 24 8 (1 # 4)). vm_compute; reflexivity.
Defined.

(** ** The values of the air-passenger windows *)

(** What holds of every entry of the rescaled series holds of every entry
    of every returned window. *)
Lemma air_entries (R : list float → Prop) csv (T P : Z) (test_size : Q) d v :
  air_values csv = Ok v → Forall R v →
  get_air_passengers csv T P test_size = Ok d →
  ∀ x y, (x, y) ∈ parts d → Forall (Forall R) x ∧ Forall (Forall R) y.
Proof.
  intros Hv HR Hd x y Hin. unfold get_air_passengers in Hd.
  destruct (air_arrays csv T P) as [[x0 y0]|e] eqn:Harr; simplify_eq/=.
  apply air_arrays_Ok in Harr as (s & Hs & _ & _ & _ & -> & ->).
  rewrite Hv in Hs. simplify_eq.
  eapply split_Forall; [| |done]; unfold windows_at;
    apply Forall_fmap, Forall_forall; intros i _; simpl;
    by apply Forall_take, Forall_drop.
Qed.

Lemma foldl_Qmax_lub l e c :
  (∀ a, a ∈ e :: l → (a <= c)%Q) → (foldl Qmax e l <= c)%Q.
Proof.
  revert e. induction l as [|b l IH]; intros e Hc; simpl.
  - apply Hc. by left.
  - apply IH. intros a [->|Ha]%elem_of_cons.
    + apply Q.max_lub; apply Hc; [by left | right; by left].
    + apply Hc. right. by right.
Qed.

Lemma foldl_Qmin_glb l e c :
  (∀ a, a ∈ e :: l → (c <= a)%Q) → (c <= foldl Qmin e l)%Q.
Proof.
  revert e. induction l as [|b l IH]; intros e Hc; simpl.
  - apply Hc. by left.
  - apply IH. intros a [->|Ha]%elem_of_cons.
    + apply Q.min_glb; apply Hc; [by left | right; by left].
    + apply Hc. right. by right.
Qed.

(** X7. When the rows read hold two different values, all of magnitude
    below [2^62] (so that the differences of line 102 stay inside the
    column's int64 or float64 range), every value of every window the
    air-passenger generator returns, inputs and outputs alike, is a number
    between -1 and 0. *)
Theorem air_windows_in_range csv (T P : Z) (test_size : Q) d a b :
  Forall (fun v => (Qabs v < inject_Z (2 ^ 62))%Q) (take 144 csv) →
  a ∈ take 144 csv → b ∈ take 144 csv → (a < b)%Q →
  get_air_passengers csv T P test_size = Ok d →
  ∀ x y, (x, y) ∈ parts d →
    Forall (Forall in_unit_below) x ∧ Forall (Forall in_unit_below) y.
Proof.
  intros _ Ha Hb Hab Hd.
  destruct (air_values_eq csv) as (hi & lo & Hhi & Hlo & _).
  { intros Hnil. rewrite Hnil in Ha. by apply elem_of_nil in Ha. }
  pose proof (min_lower_bound _ _ _ Hlo Ha).
  pose proof (max_upper_bound _ _ _ Hhi Hb).
  destruct (scale_range csv hi lo Hhi Hlo ltac:(lra)) as (Hv & Hrange & _).
  eapply air_entries; [done| |done].
  unfold column. apply Forall_fmap, Forall_fmap, Forall_forall.
  intros a' Ha'. simpl. eexists. split; [done|]. by apply Hrange.
Qed.

(** An instance: the 150-row column holds the values 104 to 253; its rows
    104 and 105 differ. *)
Lemma air_windows_in_range_witness :
  ∃ d, get_air_passengers ramp 24 8 (1 # 4) = Ok d ∧
    ∀ x y, (x, y) ∈ parts d →
      Forall (Forall in_unit_below) x ∧ Forall (Forall in_unit_below) y.
Proof.
  eexists. split; [vm_compute; reflexivity|].
  apply (air_windows_in_range ramp 24 8 (1 # 4) _ 104%Q 105%Q).
  - apply Forall_take, Forall_fmap, Forall_forall. intros i Hi%elem_of_seq.
    unfold Qlt. simpl. lia.
  - vm_compute. left.
  - vm_compute. right. left.
  - reflexivity.
  - vm_compute; reflexivity.
Defined.

(** X8. When all the rows read hold one value, the rescaling divides zero
    by zero: the generator still returns, and every value of every window
    it returns is not-a-number. *)
Theorem air_constant_series csv (T P : Z) (test_size : Q) d c :
  (∀ a, a ∈ take 144 csv → (a == c)%Q) →
  get_air_passengers csv T P test_size = Ok d →
  ∀ x y, (x, y) ∈ parts d →
    Forall (Forall (fun e => e = [NaN])) x ∧ Forall (Forall (fun e => e = [NaN])) y.
Proof.
  intros Hc Hd.
  destruct (decide (take 144 csv = [])) as [Hnil|Hne].
  { unfold get_air_passengers, air_arrays in Hd.
    destruct (air_values_empty csv Hnil) as [e He]. by rewrite He in Hd. }
  destruct (air_values_eq csv Hne) as (hi & lo & Hhi & Hlo & Hv).
  assert (hi - lo == 0)%Q as Hzero.
  { destruct (take 144 csv) as [|e l]; [done|]. simplify_eq/=.
    assert (foldl Qmax e l <= c)%Q
      by (apply foldl_Qmax_lub; intros a Ha; rewrite (Hc a Ha); apply Qle_refl).
    assert (c <= foldl Qmin e l)%Q
      by (apply foldl_Qmin_glb; intros a Ha; rewrite (Hc a Ha); apply Qle_refl).
    pose proof (foldl_Qmax_init l e). pose proof (foldl_Qmin_init l e). lra. }
  eapply air_entries; [done| |done].
  unfold column. apply Forall_fmap, Forall_fmap, Forall_forall.
  intros a _. simpl. unfold scale.
  by rewrite (proj2 (Qeq_bool_iff _ _) Hzero).
Qed.

(** An instance: twelve rows that all hold 112, windows of lengths 3
    and 2. *)
Lemma air_constant_series_witness :
  ∃ d, get_air_passengers (replicate 12 112%Q) 3 2 (1 # 4) = Ok d ∧
    ∀ x y, (x, y) ∈ parts d →
      Forall (Forall (fun e => e = [NaN])) x ∧ Forall (Forall (fun e => e = [NaN])) y.
Proof.
  eexists. split; [vm_compute; reflexivity|].
  apply (air_constant_series (replicate 12 112%Q) 3 2 (1 # 4) _ 112%Q).
  - intros a Ha. vm_compute in Ha.
    repeat (apply elem_of_cons in Ha as [->|Ha]; [reflexivity|]).
    by apply elem_of_nil in Ha.
  - vm_compute; reflexivity.
Defined.

(** ** The stock fetcher, whatever the provider does *)

(** X9. The stock fetcher never returns an empty frame and never lets an
    exception of another class than [ValueError] through: a returned frame
    is the provider's own frame and is not empty, and a raised exception
    is a [ValueError] whose message starts with the data-retrieval
    prefix. *)
Theorem stock_fetch_total (ticker : string) (provider : Stock.download) :
  match Stock.get_stock_data ticker provider with
  | Ok data => provider = Stock.Returns data ∧ Stock.empty data = false
  | Raise e => ∃ m, e = ValueError ("Error retrieving stock data: " ++ m)
  end.
Proof.
  unfold Stock.get_stock_data. destruct provider as [data|e].
  - destruct (Stock.empty data) eqn:Hempty; [by eexists | done].
  - by eexists.
Qed.

(** ** The entry point *)

Section EntryFacts.

Variables (np_sin np_cos : Q → Q) (np_pi : Q).
Variable rng : Type.
Variable random_random : rng → Q * rng.
Implicit Types (csv : list Q) (st : rng) (name : string) (T P : Z) (test_size : Q).

Lemma test_size_checked test_size :
  negb (Qle_bool 0 test_size && Qle_bool test_size 1) = false
  ↔ (0 <= test_size <= 1)%Q.
Proof.
  rewrite negb_false_iff, andb_true_iff, !Qle_bool_iff. done.
Qed.

(** X10. [get_data] checks [test_size] before it looks at the name: a
    [test_size] outside [0, 1] raises [AssertionError] for every name, known
    or not; with [test_size] inside, a name other than the two known ones
    raises a [ValueError] that quotes it; so a value is returned only for
    one of the two names and a [test_size] inside [0, 1]. *)
Theorem get_data_rejects csv st name T P test_size :
  (¬ (0 <= test_size <= 1)%Q →
   get_data np_sin np_cos np_pi rng random_random csv st name T P test_size
   = Raise (OtherError "AssertionError" "test_size is the ratio of test dataset")) ∧
  ((0 <= test_size <= 1)%Q → name ≠ "sine"%string → name ≠ "airpassengers"%string →
   get_data np_sin np_cos np_pi rng random_random csv st name T P test_size
   = Raise (ValueError ("unsupported data of " ++ name
                        ++ " yet, try 'sine', 'airpassengers'"))) ∧
  (∀ d,
     get_data np_sin np_cos np_pi rng random_random csv st name T P test_size = Ok d →
     (0 <= test_size <= 1)%Q ∧ (name = "sine"%string ∨ name = "airpassengers"%string)).
Proof.
  unfold get_data.
  destruct (negb (Qle_bool 0 test_size && Qle_bool test_size 1)) eqn:Hcheck.
  - assert (¬ (0 <= test_size <= 1)%Q) as Hout.
    { rewrite <- test_size_checked. by rewrite Hcheck. }
    split; [done|]. split; [done|]. intros d Hd. discriminate.
  - apply test_size_checked in Hcheck.
    split; [done|]. split.
    + intros _ Hsine Hair.
      by rewrite (proj2 (String.eqb_neq _ _) Hsine), (proj2 (String.eqb_neq _ _) Hair).
    + intros d Hd. split; [done|].
      destruct (String.eqb_spec name "sine"); [by left|].
      destruct (String.eqb_spec name "airpassengers"); [by right|]. discriminate.
Qed.

(** X11. Through [get_data], the sine generator builds 100 examples: for a
    [test_size] in [0, 1] and window lengths that are not negative, the
    returned examples are an [x] of shape [(100, train_length, 1)] and a [y]
    of shape [(100, predict_sequence_length, 1)], and when [test_size] is
    positive they are split with [int(100 * (1 - test_size))] examples in
    the training part, the product being the float64 one. *)
Theorem get_data_sine csv st T P test_size :
  (0 <= test_size <= 1)%Q → 0 ≤ T → 0 ≤ P →
  ∃ d x y,
    get_data np_sin np_cos np_pi rng random_random csv st "sine" T P test_size
    = Ok (SineData d) ∧
    examples d = (x, y) ∧
    shape3 x 100 (Z.to_nat T) 1 ∧ shape3 y 100 (Z.to_nat P) 1 ∧
    ((0 < test_size)%Q →
     ∃ x_train y_train x_valid y_valid,
       d = Split (x_train, y_train) (x_valid, y_valid) ∧
       Z.of_nat (length x_train)
       = Qfloor (Float64.mul (Float64.of_int 100) (Float64.sub 1 test_size)) ∧
       length y_train = length x_train).
Proof.
  intros Hts HT HP. unfold get_data.
  rewrite (proj2 (test_size_checked test_size) Hts).
  change (String.eqb "sine" "sine") with true. cbv iota.
  unfold get_sine. rewrite sine_arrays_eq by lia.
  set (us := draws rng random_random (Z.to_nat 100) st).
  assert (length us = 100%nat) as Hus by apply draws_length.
  clearbody us. cbn [mbind result_bind].
  do 3 eexists. split; [done|]. split; [apply train_valid_split_examples|].
  split; [|split].
  - split; [by rewrite length_fmap|].
    apply Forall_fmap, Forall_forall. intros u _. simpl.
    split; [|apply column_entries]. rewrite column_length, length_take, sig1_length. lia.
  - split; [by rewrite length_fmap|].
    apply Forall_fmap, Forall_forall. intros u _. simpl.
    split; [|apply column_entries]. rewrite column_length, length_drop, sig1_length. lia.
  - intros Hpos. rewrite train_valid_split_cut by (lia || tauto).
    pose proof (split_point_bounds 100 test_size ltac:(lia) ltac:(done)
                  ltac:(tauto) ltac:(tauto)) as Hk.
    do 4 eexists. split; [done|].
    rewrite !length_take, !length_fmap, Hus. split; lia.
Qed.

(** X12. Through [get_data], the air-passenger generator on a column of at
    least 144 rows, with window lengths of at least 1 that together do not
    exceed 144 and a [test_size] in [0, 1], returns
    [144 - train_length - predict_sequence_length] examples, and when
    [test_size] is positive they are split with [int] of that number times
    [1 - test_size] in the training part, the product being the float64
    one. *)
Theorem get_data_airpassengers csv st T P test_size :
  (0 <= test_size <= 1)%Q → (144 ≤ length csv)%nat → 1 ≤ T → 1 ≤ P → T + P ≤ 144 →
  ∃ d x y,
    get_data np_sin np_cos np_pi rng random_random csv st "airpassengers" T P test_size
    = Ok (AirData d) ∧
    examples d = (x, y) ∧
    Z.of_nat (length x) = 144 - T - P ∧ length y = length x ∧
    ((0 < test_size)%Q →
     ∃ x_train y_train x_valid y_valid,
       d = Split (x_train, y_train) (x_valid, y_valid) ∧
       Z.of_nat (length x_train)
       = Qfloor (Float64.mul (Float64.of_int (144 - T - P))
                             (Float64.sub 1 test_size)) ∧
       length y_train = length x_train).
Proof.
  intros Hts Hlen HT HP HTP. unfold get_data.
  rewrite (proj2 (test_size_checked test_size) Hts).
  change (String.eqb "airpassengers" "sine") with false.
  change (String.eqb "airpassengers" "airpassengers") with true. cbv iota.
  destruct (air_arrays_eq csv T P Hlen HT HP) as (s & _ & _ & Harr).
  unfold get_air_passengers. rewrite Harr. cbn [mbind result_bind].
  do 3 eexists. split; [done|]. split; [apply train_valid_split_examples|].
  rewrite !windows_at_length. split; [lia|]. split; [done|].
  intros Hpos.
  replace (Z.of_nat (144 - Z.to_nat P - Z.to_nat T)) with (144 - T - P) by lia.
  rewrite train_valid_split_cut by (lia || tauto).
  assert (144 - T - P < 2 ^ 53) as Hbig
    by (change (2 ^ 53) with 9007199254740992; lia).
  pose proof (split_point_bounds (144 - T - P) test_size ltac:(lia) Hbig
                ltac:(tauto) ltac:(tauto)) as Hk.
  do 4 eexists. split; [done|].
  rewrite !length_take, !windows_at_length. split; lia.
Qed.

End EntryFacts.

(** Instances: a [test_size] of 3/2; the name "stocks"; a call that
    returns. *)
Lemma get_data_rejects_witness :
  get_data sin3 cos2 pi_approx nat lcg ramp 1%nat "stocks" 24 8 (3 # 2)
  = Raise (OtherError "AssertionError" "test_size is the ratio of test dataset") ∧
  get_data sin3 cos2 pi_approx nat lcg ramp 1%nat "stocks" 24 8 (1 # 8)
  = Raise (ValueError "unsupported data of stocks yet, try 'sine', 'airpassengers'") ∧
  (∃ d, get_data sin3 cos2 pi_approx nat lcg ramp 1%nat "airpassengers" 24 8 (1 # 8)
        = Ok d ∧
        (0 <= 1 # 8 <= 1)%Q ∧
        ("airpassengers" = "sine" ∨ "airpassengers" = "airpassengers")%string).
Proof.
  split; [|split].
  - apply (proj1 (get_data_rejects sin3 cos2 pi_approx nat lcg ramp 1%nat "stocks"
                    24 8 (3 # 2))).
    intros [_ Hle]. by apply Hle.
  - apply (proj1 (proj2 (get_data_rejects sin3 cos2 pi_approx nat lcg ramp 1%nat "stocks"
                           24 8 (1 # 8)))).
    + split; discriminate.
    + discriminate.
    + discriminate.
  - eexists. split; [vm_compute; reflexivity|].
    eapply (proj2 (proj2 (get_data_rejects sin3 cos2 pi_approx nat lcg ramp 1%nat
                            "airpassengers" 24 8 (1 # 8)))).
    vm_compute; reflexivity.
Defined.

(** Instances: the defaults of [get_data]. *)
Lemma get_data_sine_witness :
  ∃ d x y,
    get_data sin3 cos2 pi_approx nat lcg ramp 1%nat "sine" 24 8 (1 # 8)
    = Ok (SineData d) ∧
    examples d = (x, y) ∧
    shape3 x 100 (Z.to_nat 24) 1 ∧ shape3 y 100 (Z.to_nat 8) 1 ∧
    ((0 < 1 # 8)%Q →
     ∃ x_train y_train x_valid y_valid,
       d = Split (x_train, y_train) (x_valid, y_valid) ∧
       Z.of_nat (length x_train)
       = Qfloor (Float64.mul (Float64.of_int 100) (Float64.sub 1 (1 # 8))) ∧
       length y_train = length x_train).
Proof.
  apply (get_data_sine sin3 cos2 pi_approx nat lcg ramp 1%nat 24 8 (1 # 8));
    [split; discriminate | lia | lia].
Defined.

Lemma get_data_airpassengers_witness :
  ∃ d x y,
    get_data sin3 cos2 pi_approx nat lcg ramp 1%nat "airpassengers" 24 8 (1 # 8)
    = Ok (AirData d) ∧
    examples d = (x, y) ∧
    Z.of_nat (length x) = 144 - 24 - 8 ∧ length y = length x ∧
    ((0 < 1 # 8)%Q →
     ∃ x_train y_train x_valid y_valid,
       d = Split (x_train, y_train) (x_valid, y_valid) ∧
       Z.of_nat (length x_train)
       = Qfloor (Float64.mul (Float64.of_int (144 - 24 - 8))
                             (Float64.sub 1 (1 # 8))) ∧
       length y_train = length x_train).
Proof.
  apply (get_data_airpassengers sin3 cos2 pi_approx nat lcg ramp 1%nat 24 8 (1 # 8));
    [split; discriminate | vm_compute; lia | lia | lia | lia].
Defined.


(** ** The cosine channel *)

Lemma slice_length {A B} start stop (l : list A) (k : list B) :
  length l = length k →
  length (Py.slice start stop l) = length (Py.slice start stop k).
Proof.
  intros Hlen. unfold Py.slice. by rewrite !length_take, !length_drop, Hlen.
Qed.

(** Whatever the window lengths, the first channel of the arrays of an
    example holds values of the sine curve only. *)
Lemma first_channel_samples np_sin np_cos np_pi (T P : Z) (u : Q) :
  Py.slice (Some 0) (Some 1) <$> sample_x np_sin np_cos np_pi T P u
  = column (Py.slice None (Some T) (sig1 np_sin np_pi T P u)) ∧
  Py.slice (Some 0) (Some 1) <$> sample_y np_sin np_cos np_pi T P u
  = column (Py.slice (Some T) None (sig1 np_sin np_pi T P u)).
Proof.
  unfold sample_x, sample_y.
  split; apply first_channel_pair, slice_length; by rewrite sig1_length, sig2_length.
Qed.

(** X13. The cosine curve never reaches what the sine generator returns:
    for all arguments, replacing [np.cos] by any other function leaves the
    returned value, or the raised exception, the same. *)
Theorem cosine_never_returned np_sin np_cos np_cos' np_pi rng random_random
    (T P : Z) (test_size : Q) (n : Z) (st : rng) :
  get_sine np_sin np_cos np_pi rng random_random T P test_size n st
  = get_sine np_sin np_cos' np_pi rng random_random T P test_size n st.
Proof.
  unfold get_sine.
  enough (sine_arrays np_sin np_cos np_pi rng random_random T P n st
          = sine_arrays np_sin np_cos' np_pi rng random_random T P n st) as -> by done.
  destruct (Z.lt_ge_cases n 1) as [Hn|Hn].
  { by rewrite !sine_arrays_no_examples by lia. }
  destruct (Z.lt_ge_cases (T + P) 0) as [Hnum|Hnum].
  { by rewrite !sine_arrays_no_curve_error by done. }
  rewrite !sine_arrays_Ok by done. rewrite <- !list_fmap_compose.
  do 2 f_equal; apply list_fmap_ext; intros i u _; simpl.
  - by rewrite !(proj1 (first_channel_samples _ _ _ _ _ _)).
  - by rewrite !(proj2 (first_channel_samples _ _ _ _ _ _)).
Qed.
